(** * clankie web-ui: the realtime synchronisation layer

    A shallow embedding of

    - [web-ui/src/lib/ws-client.ts]: the [WebSocketClient] connection
      manager with its reconnection policy, and
    - [web-ui/src/stores/tool-executions.ts]: the tool execution tracker,

    together with the properties of the specification that concern them.

    Conventions.  The browser is single threaded: every callback runs to
    completion, so a client is a state record and every method or callback a
    function from a state to a new state and the list of observable effects
    it produced, in order.  Consumer callbacks ([onMessage],
    [onStateChange]) and the host built-ins are assumed to return normally,
    except where the source wraps them in [try].  The delays given in the
    options are integer milliseconds; what the code computes from them is
    a JavaScript number, which may be infinite or not a number. *)

From Stdlib Require Import ZArith List Bool Lia.
From stdpp Require Import gmap strings list fin_maps.
Import ListNotations.

(** Decoded JSON values: what [JSON.parse] returns, and the shape of the
    [Record<string, unknown>] payloads carried by tool calls. *)
#[warnings="-register-all"]
Inductive json : Type :=
| JNull
| JBool (b : bool)
| JNumber (n : Z)
| JString (s : string)
| JArray (items : list json)
| JObject (fields : list (string * json)).

(* ===================================================================== *)
(** * The WebSocket client ([ws-client.ts])                                *)
(* ===================================================================== *)

Module WsClient.

(** [ConnectionState] *)
Inductive ConnectionState : Type :=
| disconnected
| connecting
| connected
| error.

Definition ConnectionState_eqb (a b : ConnectionState) : bool :=
  match a, b with
  | disconnected, disconnected
  | connecting, connecting
  | connected, connected
  | error, error => true
  | _, _ => false
  end.

(** [WebSocketClientOptions] as the caller passes them: the three
    reconnection fields are optional ([None]: the key is absent; a key
    that is present holds a value of its type). *)
Record WebSocketClientOptions : Type := {
  url : string;
  authToken : string;
  reconnect : option bool;
  reconnectDelay : option Z;
  maxReconnectDelay : option Z
}.

(** [this.options] after the constructor has spread the caller's options
    over the defaults. *)
Record ResolvedOptions : Type := {
  opt_url : string;
  opt_authToken : string;
  opt_reconnect : bool;
  opt_reconnectDelay : Z;
  opt_maxReconnectDelay : Z
}.

Definition resolve_options (o : WebSocketClientOptions) : ResolvedOptions :=
  {| opt_url := url o;
     opt_authToken := authToken o;
     opt_reconnect := default true (reconnect o);
     opt_reconnectDelay := default 1000%Z (reconnectDelay o);
     opt_maxReconnectDelay := default 30000%Z (maxReconnectDelay o) |}.

(** The JavaScript numbers that arithmetic on integers can produce. *)
Inductive JsNumber : Type :=
| Finite (z : Z)
| PosInfinity
| NegInfinity
| NotANumber.

Coercion Finite : Z >-> JsNumber.
Bind Scope Z_scope with JsNumber.

(** [2 ** n] for a natural number [n]: [2 ** 1024] is [Infinity]. *)
Definition js_pow2 (n : nat) : JsNumber :=
  if (n <? 1024)%nat then Finite (2 ^ Z.of_nat n) else PosInfinity.

(** [a * b] for an integer [a] that is a JavaScript number and a power of
    two [b]: the product is exact until it reaches [2 ** 1024], where it
    is infinite; and [0 * Infinity] is [NaN]. *)
Definition js_mul (a : Z) (b : JsNumber) : JsNumber :=
  match b with
  | Finite z =>
      if (Z.abs (a * z) <? 2 ^ 1024)%Z then Finite (a * z)
      else if (0 <? a * z)%Z then PosInfinity else NegInfinity
  | PosInfinity =>
      if (a =? 0)%Z then NotANumber
      else if (0 <? a)%Z then PosInfinity else NegInfinity
  | NegInfinity =>
      if (a =? 0)%Z then NotANumber
      else if (0 <? a)%Z then NegInfinity else PosInfinity
  | NotANumber => NotANumber
  end.

(** [Math.min(x, m)] for an integer [m]. *)
Definition js_min (x : JsNumber) (m : Z) : JsNumber :=
  match x with
  | Finite z => Finite (Z.min z m)
  | PosInfinity => Finite m
  | NegInfinity => NegInfinity
  | NotANumber => NotANumber
  end.

(** The socket object held in [this.ws]. *)
Record WebSocket : Type := { ws_url : string; ws_token : string }.

(** What the host environment decides.
    - [JSON_parse]: [None] when [JSON.parse] throws;
    - [onMessage_throws data]: whether the consumer's [onMessage] throws
      on [data] (the call sits inside the handler's [try]);
    - [socket_error url token]: [Some message] when [new URL(url)] or
      [new WebSocket(...)] throws inside [connect]'s [try];
    - [has_dom]: whether [window] and [document] are defined. *)
Record Host : Type := {
  JSON_parse : string -> option json;
  onMessage_throws : json -> bool;
  socket_error : string -> string -> option string;
  has_dom : bool
}.

(** Lines written to the console. *)
Inductive LogLine : Type :=
| LogParseFailure
| LogSocketError
| LogReconnecting (delay : JsNumber) (attempt : nat)
| LogTabVisible
| LogReconnectTabVisible
| LogNetworkOnline
| LogReconnectNetworkOnline.

(** Observable actions of the client, in the order it performs them. *)
Inductive Effect : Type :=
| StateChange (s : ConnectionState) (err : option string)
    (* options.onStateChange(state, error) *)
| OnMessage (data : json)              (* options.onMessage(data) *)
| NewWebSocket (sock : WebSocket)      (* new WebSocket(url) *)
| SocketClose                          (* this.ws.close() *)
| SocketSend (data : json)             (* this.ws.send(JSON.stringify(data)) *)
| SetTimeout (delay : JsNumber)        (* setTimeout(callback, delay) *)
| ClearTimeout                         (* clearTimeout(this.reconnectTimer) *)
| AddEventListeners                    (* visibilitychange and online *)
| RemoveVisibilityListener
| RemoveOnlineListener
| ConsoleLog (l : LogLine)
| ConsoleError (l : LogLine).

(** The private fields of [WebSocketClient].  A pending timer is
    represented by its delay; the two handlers by whether they are set
    (they are registered on [document] and [window] exactly when set). *)
Record WebSocketClient : Type := {
  ws : option WebSocket;
  options : ResolvedOptions;
  state : ConnectionState;
  reconnectAttempt : nat;
  reconnectTimer : option JsNumber;
  shouldReconnect : bool;
  visibilityHandler : bool;
  onlineHandler : bool
}.

Definition set_ws (v : option WebSocket) (c : WebSocketClient) :=
  {| ws := v; options := options c; state := state c;
     reconnectAttempt := reconnectAttempt c;
     reconnectTimer := reconnectTimer c;
     shouldReconnect := shouldReconnect c;
     visibilityHandler := visibilityHandler c;
     onlineHandler := onlineHandler c |}.

Definition set_state (v : ConnectionState) (c : WebSocketClient) :=
  {| ws := ws c; options := options c; state := v;
     reconnectAttempt := reconnectAttempt c;
     reconnectTimer := reconnectTimer c;
     shouldReconnect := shouldReconnect c;
     visibilityHandler := visibilityHandler c;
     onlineHandler := onlineHandler c |}.

Definition set_reconnectAttempt (v : nat) (c : WebSocketClient) :=
  {| ws := ws c; options := options c; state := state c;
     reconnectAttempt := v;
     reconnectTimer := reconnectTimer c;
     shouldReconnect := shouldReconnect c;
     visibilityHandler := visibilityHandler c;
     onlineHandler := onlineHandler c |}.

Definition set_reconnectTimer (v : option JsNumber) (c : WebSocketClient) :=
  {| ws := ws c; options := options c; state := state c;
     reconnectAttempt := reconnectAttempt c;
     reconnectTimer := v;
     shouldReconnect := shouldReconnect c;
     visibilityHandler := visibilityHandler c;
     onlineHandler := onlineHandler c |}.

Definition set_shouldReconnect (v : bool) (c : WebSocketClient) :=
  {| ws := ws c; options := options c; state := state c;
     reconnectAttempt := reconnectAttempt c;
     reconnectTimer := reconnectTimer c;
     shouldReconnect := v;
     visibilityHandler := visibilityHandler c;
     onlineHandler := onlineHandler c |}.

Definition set_visibilityHandler (v : bool) (c : WebSocketClient) :=
  {| ws := ws c; options := options c; state := state c;
     reconnectAttempt := reconnectAttempt c;
     reconnectTimer := reconnectTimer c;
     shouldReconnect := shouldReconnect c;
     visibilityHandler := v;
     onlineHandler := onlineHandler c |}.

Definition set_onlineHandler (v : bool) (c : WebSocketClient) :=
  {| ws := ws c; options := options c; state := state c;
     reconnectAttempt := reconnectAttempt c;
     reconnectTimer := reconnectTimer c;
     shouldReconnect := shouldReconnect c;
     visibilityHandler := visibilityHandler c;
     onlineHandler := v |}.

(** ** A small state-and-output monad for the method bodies *)

Definition Action : Type := WebSocketClient -> WebSocketClient * list Effect.

Definition skip : Action := fun c => (c, []).
Definition emit (e : Effect) : Action := fun c => (c, [e]).
Definition modify (f : WebSocketClient -> WebSocketClient) : Action :=
  fun c => (f c, []).
Definition andThen (a b : Action) : Action :=
  fun c => let '(c1, out1) := a c in
           let '(c2, out2) := b c1 in
           (c2, out1 ++ out2).
Definition when (b : bool) (a : Action) : Action := if b then a else skip.

Declare Scope action_scope.
Delimit Scope action_scope with action.
Bind Scope action_scope with Action.
Notation "a ;; b" := (andThen a b)
  (at level 100, right associativity) : action_scope.
Local Open Scope action_scope.

(** The client's inputs: the two public methods without a result, the four
    socket callbacks, the reconnect timer's callback and the two DOM
    events. *)
Inductive Input : Type :=
| Connect
| Disconnect
| SocketOpened
| SocketMessage (data : string)
| SocketErrored
| SocketClosed
| TimerFired
| VisibilityChange (visible : bool)
| NetworkOnline.

Section Client.

Variable host : Host.

(** [setState]: a transition to the current state is silent. *)
Definition setState (s : ConnectionState) (err : option string) : Action :=
  fun c =>
    if ConnectionState_eqb (state c) s then skip c
    else (modify (set_state s) ;; emit (StateChange s err)) c.

Definition busy (s : ConnectionState) : bool :=
  match s with
  | connected | connecting => true
  | _ => false
  end.

(** [connect] *)
Definition connect : Action := fun c =>
  if busy (state c) then skip c
  else
    (modify (set_shouldReconnect true) ;;
     setState connecting None ;;
     fun c1 =>
       match socket_error host (opt_url (options c1))
                               (opt_authToken (options c1)) with
       | None =>
           let sock := {| ws_url := opt_url (options c1);
                          ws_token := opt_authToken (options c1) |} in
           (emit (NewWebSocket sock) ;; modify (set_ws (Some sock))) c1
       | Some message => setState error (Some message) c1
       end) c.

(** [cleanupVisibilityHandlers] *)
Definition cleanupVisibilityHandlers : Action := fun c =>
  if negb (has_dom host) then skip c
  else
    (when (visibilityHandler c)
       (emit RemoveVisibilityListener ;; modify (set_visibilityHandler false)) ;;
     fun c1 =>
       when (onlineHandler c1)
         (emit RemoveOnlineListener ;; modify (set_onlineHandler false)) c1) c.

(** [disconnect] *)
Definition disconnect : Action := fun c =>
  (modify (set_shouldReconnect false) ;;
   when (bool_decide (is_Some (reconnectTimer c)))
     (emit ClearTimeout ;; modify (set_reconnectTimer None)) ;;
   when (bool_decide (is_Some (ws c)))
     (emit SocketClose ;; modify (set_ws None)) ;;
   cleanupVisibilityHandlers ;;
   setState disconnected None) c.

(** The delay computed by [scheduleReconnect]:
    [Math.min(reconnectDelay * 2 ** reconnectAttempt, maxReconnectDelay)]. *)
Definition backoff_delay (o : ResolvedOptions) (attempt : nat) : JsNumber :=
  js_min (js_mul (opt_reconnectDelay o) (js_pow2 attempt))
         (opt_maxReconnectDelay o).

(** [scheduleReconnect] *)
Definition scheduleReconnect : Action := fun c =>
  match reconnectTimer c with
  | Some _ => skip c
  | None =>
      let delay := backoff_delay (options c) (reconnectAttempt c) in
      (modify (set_reconnectAttempt (S (reconnectAttempt c))) ;;
       emit (ConsoleLog (LogReconnecting delay (S (reconnectAttempt c)))) ;;
       emit (SetTimeout delay) ;;
       modify (set_reconnectTimer (Some delay))) c
  end.

(** The callback given to [setTimeout]. *)
Definition timerCallback : Action :=
  modify (set_reconnectTimer None) ;; connect.

(** [ws.onopen] *)
Definition onopen : Action :=
  modify (set_reconnectAttempt 0) ;; setState connected None.

(** [ws.onmessage]: the [catch] serves both [JSON.parse] and the
    consumer's callback. *)
Definition onmessage (data : string) : Action :=
  match JSON_parse host data with
  | Some v =>
      emit (OnMessage v) ;;
      when (onMessage_throws host v) (emit (ConsoleError LogParseFailure))
  | None => emit (ConsoleError LogParseFailure)
  end.

(** [ws.onerror] *)
Definition onerror : Action :=
  emit (ConsoleError LogSocketError) ;;
  setState error (Some "Connection error"%string).

(** [ws.onclose] *)
Definition onclose : Action := fun c =>
  (modify (set_ws None) ;;
   if shouldReconnect c && opt_reconnect (options c)
   then scheduleReconnect
   else setState disconnected None) c.

(** The part shared by the two DOM handlers once their guard has passed. *)
Definition reconnectNow (l : LogLine) : Action := fun c =>
  (emit (ConsoleLog l) ;;
   when (bool_decide (is_Some (reconnectTimer c)))
     (emit ClearTimeout ;; modify (set_reconnectTimer None)) ;;
   modify (set_reconnectAttempt 0) ;;
   connect) c.

(** [this.visibilityHandler]; [visible] is
    [document.visibilityState === 'visible']. *)
Definition onVisibilityChange (visible : bool) : Action := fun c =>
  if visible then
    (emit (ConsoleLog LogTabVisible) ;;
     when (shouldReconnect c && negb (busy (state c)))
       (reconnectNow LogReconnectTabVisible)) c
  else skip c.

(** [this.onlineHandler] *)
Definition onOnline : Action := fun c =>
  (emit (ConsoleLog LogNetworkOnline) ;;
   when (shouldReconnect c && negb (busy (state c)))
     (reconnectNow LogReconnectNetworkOnline)) c.

(** [setupVisibilityHandlers], called by the constructor only. *)
Definition setupVisibilityHandlers : Action := fun c =>
  if negb (has_dom host) then skip c
  else
    (modify (set_visibilityHandler true) ;;
     modify (set_onlineHandler true) ;;
     emit AddEventListeners) c.

(** [new WebSocketClient(options)] *)
Definition new_client (o : WebSocketClientOptions)
  : WebSocketClient * list Effect :=
  setupVisibilityHandlers
    {| ws := None;
       options := resolve_options o;
       state := disconnected;
       reconnectAttempt := 0;
       reconnectTimer := None;
       shouldReconnect := true;
       visibilityHandler := false;
       onlineHandler := false |}.

(** [send]: [inl message] when it throws [new Error(message)]. *)
Definition send (data : json) (c : WebSocketClient)
  : string + WebSocketClient * list Effect :=
  match state c, ws c with
  | connected, Some _ => inr (c, [SocketSend data])
  | _, _ => inl "WebSocket is not connected"%string
  end.

(** [getState] *)
Definition getState (c : WebSocketClient) : ConnectionState := state c.

(** One input delivered to the client.  The socket callbacks close over
    [this] only, so they act alike whichever socket calls them.  A timer
    that was cleared or has already fired does not fire, and a DOM event
    reaches the client only through a listener that is still registered. *)
Definition handle (i : Input) : Action := fun c =>
  match i with
  | Connect => connect c
  | Disconnect => disconnect c
  | SocketOpened => onopen c
  | SocketMessage data => onmessage data c
  | SocketErrored => onerror c
  | SocketClosed => onclose c
  | TimerFired =>
      match reconnectTimer c with
      | Some _ => timerCallback c
      | None => skip c
      end
  | VisibilityChange visible =>
      if visibilityHandler c then onVisibilityChange visible c else skip c
  | NetworkOnline =>
      if onlineHandler c then onOnline c else skip c
  end.

(** A run: inputs handled one after the other, outputs concatenated. *)
Fixpoint run (tr : list Input) : Action := fun c =>
  match tr with
  | [] => skip c
  | i :: tr' => (handle i ;; run tr') c
  end.

End Client.

(** ** Reading a run's output *)

(** The delays of the timers set, in order. *)
Definition scheduled_delays (out : list Effect) : list JsNumber :=
  omap (fun e => match e with SetTimeout d => Some d | _ => None end) out.

(** The notifications given to [onStateChange], in order. *)
Definition state_changes (out : list Effect) : list ConnectionState :=
  omap (fun e => match e with StateChange s _ => Some s | _ => None end) out.

(** Anything that is, or leads to, a connection attempt: a socket is
    constructed, the state becomes [connecting], or a reconnect timer is
    set. *)
Definition reconnect_activity (e : Effect) : bool :=
  match e with
  | NewWebSocket _ | SetTimeout _ | StateChange connecting _ => true
  | _ => false
  end.

Definition opens_socket (e : Effect) : bool :=
  match e with
  | NewWebSocket _ => true
  | _ => false
  end.

Definition calls_consumer (e : Effect) : bool :=
  match e with
  | OnMessage _ | StateChange _ _ => true
  | _ => false
  end.

(** Inputs that are neither a close, nor a successful open, nor an
    environment trigger, nor an explicit disconnect. *)
Definition quiet (i : Input) : bool :=
  match i with
  | Connect | SocketMessage _ | SocketErrored | TimerFired => true
  | _ => false
  end.

(** The run of [n] unexpected closes: [first], then a close, then for
    every further segment the segment and a close. *)
Definition closes_after (first : list Input) (rest : list (list Input))
  : list Input :=
  first ++ [SocketClosed]
        ++ concat (map (fun seg => seg ++ [SocketClosed]) rest).

(** Whether consecutive entries differ, starting from [prev]. *)
Fixpoint no_repeat (prev : ConnectionState) (l : list ConnectionState)
  : bool :=
  match l with
  | [] => true
  | s :: l' => negb (ConnectionState_eqb prev s) && no_repeat s l'
  end.

(** The number of [clearTimeout] calls in an output. *)
Definition timers_cleared (out : list Effect) : nat :=
  length (omap (fun e => match e with ClearTimeout => Some tt | _ => None end)
               out).

(** The sockets constructed in an output, in order. *)
Definition sockets_opened (out : list Effect) : list WebSocket :=
  omap (fun e => match e with NewWebSocket w => Some w | _ => None end) out.

(** ** A sample host and client, used to exercise the model *)

(** A browser whose [JSON.parse] is cut down to the three JSON keywords,
    whose consumer never throws and whose socket constructor accepts
    every URL. *)
Definition sample_host : Host :=
  {| JSON_parse := fun s =>
       if String.eqb s "null" then Some JNull
       else if String.eqb s "true" then Some (JBool true)
       else if String.eqb s "false" then Some (JBool false)
       else None;
     onMessage_throws := fun _ => false;
     socket_error := fun _ _ => None;
     has_dom := true |}.

Definition sample_options : WebSocketClientOptions :=
  {| url := "ws://localhost:3100"; authToken := "secret";
     reconnect := None; reconnectDelay := None; maxReconnectDelay := None |}.

Definition sample_client : WebSocketClient :=
  fst (new_client sample_host sample_options).

End WsClient.

(* ===================================================================== *)
(** * The tool execution tracker ([stores/tool-executions.ts])             *)
(* ===================================================================== *)

Module ToolExecutions.

Inductive Role : Type := user | assistant.

(** Modelled from the spec: the [DisplayMessage] type of
    [stores/messages.ts], which is imported but not part of the sources at
    hand (identifier, role, textual content, timestamp). *)
Record DisplayMessage : Type := {
  id : string;
  role : Role;
  content : string;
  timestamp : Z
}.

(** Modelled from the spec: the state of [messagesStore], with the fields
    the test setup resets. *)
Record MessagesStore : Type := {
  messages : list DisplayMessage;
  streamingContent : string;
  thinkingContent : string;
  currentMessageId : option string
}.

(** [ToolExecutionResult] *)
Record ToolExecutionResult : Type := {
  result_content : option (list json);
  result_details : option json
}.

Inductive ToolStatus : Type := called | running | completed | error.

(** [ToolExecution].  Optional fields are options; [messageId] is
    [string | null]. *)
Record ToolExecution : Type := {
  toolCallId : string;
  toolName : string;
  args : json;
  status : ToolStatus;
  partialResult : option ToolExecutionResult;
  result : option ToolExecutionResult;
  isError : option bool;
  startTime : Z;
  endTime : option Z;
  messageId : option string
}.

(** [ToolExecutionsStore]: the [executions] object is used as a finite map
    from call ids to records.  This reading is exact for call ids that
    are not property names every object inherits; the module
    [ToolExecutionsJs] below embeds the same functions without that
    proviso and agrees with this one on such ids. *)
Record ToolExecutionsStore : Type := {
  executions : gmap string ToolExecution;
  executionOrder : list string
}.

Definition INITIAL_STATE : ToolExecutionsStore :=
  {| executions := ∅; executionOrder := [] |}.

(** The parameter object of [registerToolCall] and [startToolExecution]. *)
Record ToolCallParams : Type := {
  p_toolCallId : string;
  p_toolName : string;
  p_args : json
}.

Definition is_assistant (m : DisplayMessage) : bool :=
  match role m with
  | assistant => true
  | user => false
  end.

(** [resolveCurrentAssistantMessageId]; the first test is JavaScript
    truthiness, which the empty string fails. *)
Definition resolveCurrentAssistantMessageId (m : MessagesStore)
  : option string :=
  let lastAssistant := find is_assistant (rev (messages m)) in
  match currentMessageId m with
  | Some (String a s) => Some (String a s)
  | _ => id <$> lastAssistant
  end.

(** [a ?? b] *)
Definition nullish {A} (a : option A) (b : A) : A := default b a.

(** The [executionOrder] both [registerToolCall] and [startToolExecution]
    compute. *)
Definition order_with (callId : string) (order : list string) : list string :=
  if bool_decide (callId ∈ order) then order else order ++ [callId].

(** [registerToolCall]; [now] is the value of [Date.now()]. *)
Definition registerToolCall (params : ToolCallParams) (msgs : MessagesStore)
    (now : Z) (st : ToolExecutionsStore) : ToolExecutionsStore :=
  let messageId' := resolveCurrentAssistantMessageId msgs in
  let existing := executions st !! p_toolCallId params in
  {| executions :=
       <[ p_toolCallId params :=
            match existing with
            | Some e =>
                {| toolCallId := toolCallId e;
                   toolName := p_toolName params;
                   args := p_args params;
                   status := status e;
                   partialResult := partialResult e;
                   result := result e;
                   isError := isError e;
                   startTime := startTime e;
                   endTime := endTime e;
                   messageId :=
                     match messageId e with
                     | Some m => Some m
                     | None => messageId'
                     end |}
            | None =>
                {| toolCallId := p_toolCallId params;
                   toolName := p_toolName params;
                   args := p_args params;
                   status := called;
                   partialResult := None;
                   result := None;
                   isError := None;
                   startTime := now;
                   endTime := None;
                   messageId := messageId' |}
            end ]> (executions st);
     executionOrder := order_with (p_toolCallId params) (executionOrder st) |}.

(** [startToolExecution] *)
Definition startToolExecution (params : ToolCallParams) (msgs : MessagesStore)
    (now : Z) (st : ToolExecutionsStore) : ToolExecutionsStore :=
  let messageId' := resolveCurrentAssistantMessageId msgs in
  let existing := executions st !! p_toolCallId params in
  {| executions :=
       <[ p_toolCallId params :=
            {| toolCallId := p_toolCallId params;
               toolName := p_toolName params;
               args := p_args params;
               status := running;
               partialResult := existing ≫= partialResult;
               result := existing ≫= result;
               isError := existing ≫= isError;
               startTime := nullish (startTime <$> existing) now;
               endTime := existing ≫= endTime;
               messageId :=
                 match existing ≫= messageId with
                 | Some m => Some m
                 | None => messageId'
                 end |} ]> (executions st);
     executionOrder := order_with (p_toolCallId params) (executionOrder st) |}.

(** [updateToolExecution] *)
Definition updateToolExecution (callId : string)
    (partial : ToolExecutionResult) (st : ToolExecutionsStore)
  : ToolExecutionsStore :=
  match executions st !! callId with
  | None => st
  | Some e =>
      {| executions :=
           <[ callId :=
                {| toolCallId := toolCallId e;
                   toolName := toolName e;
                   args := args e;
                   status := status e;
                   partialResult := Some partial;
                   result := result e;
                   isError := isError e;
                   startTime := startTime e;
                   endTime := endTime e;
                   messageId := messageId e |} ]> (executions st);
         executionOrder := executionOrder st |}
  end.

(** [finishToolExecution] *)
Definition finishToolExecution (callId : string) (res : ToolExecutionResult)
    (is_error : bool) (now : Z) (st : ToolExecutionsStore)
  : ToolExecutionsStore :=
  match executions st !! callId with
  | None => st
  | Some e =>
      {| executions :=
           <[ callId :=
                {| toolCallId := toolCallId e;
                   toolName := toolName e;
                   args := args e;
                   status := if is_error then error else completed;
                   partialResult := partialResult e;
                   result := Some res;
                   isError := Some is_error;
                   startTime := startTime e;
                   endTime := Some now;
                   messageId := messageId e |} ]> (executions st);
         executionOrder := executionOrder st |}
  end.

(** [getToolExecutionsForMessage] *)
Definition getToolExecutionsForMessage (mid : string)
    (st : ToolExecutionsStore) : list ToolExecution :=
  filter (fun e => messageId e = Some mid)
         (omap (fun i => executions st !! i) (executionOrder st)).

(** [hasToolExecutionsForMessage] *)
Definition hasToolExecutionsForMessage (mid : string)
    (st : ToolExecutionsStore) : bool :=
  bool_decide (0 < length (getToolExecutionsForMessage mid st)).

(** One call of the tracker's API, with what it reads from its
    surroundings: the messages store and the clock. *)
Inductive Op : Type :=
| Register (params : ToolCallParams) (msgs : MessagesStore) (now : Z)
| Start (params : ToolCallParams) (msgs : MessagesStore) (now : Z)
| Update (callId : string) (partial : ToolExecutionResult)
| Finish (callId : string) (res : ToolExecutionResult) (is_error : bool)
    (now : Z).

Definition op_id (o : Op) : string :=
  match o with
  | Register p _ _ | Start p _ _ => p_toolCallId p
  | Update i _ | Finish i _ _ _ => i
  end.

Definition apply_op (o : Op) (st : ToolExecutionsStore) : ToolExecutionsStore :=
  match o with
  | Register p m t => registerToolCall p m t st
  | Start p m t => startToolExecution p m t st
  | Update i r => updateToolExecution i r st
  | Finish i r b t => finishToolExecution i r b t st
  end.

Definition apply_ops (ops : list Op) (st : ToolExecutionsStore)
  : ToolExecutionsStore :=
  fold_left (fun s o => apply_op o s) ops st.

(** The position of a status in the order called, running,
    completed | error. *)
Definition rank (s : ToolStatus) : nat :=
  match s with
  | called => 0
  | running => 1
  | completed | error => 2
  end.

Definition terminal (s : ToolStatus) : bool :=
  match s with
  | completed | error => true
  | _ => false
  end.

(** Whether an operation is a [startToolExecution], respectively a
    [finishToolExecution], on the given call id. *)
Definition restarts (callId : string) (o : Op) : bool :=
  match o with
  | Start p _ _ => bool_decide (p_toolCallId p = callId)
  | _ => false
  end.

Definition finishes (callId : string) (o : Op) : bool :=
  match o with
  | Finish i _ _ _ => bool_decide (i = callId)
  | _ => false
  end.

(** Whether an operation is a [registerToolCall] or a
    [startToolExecution] on the given call id. *)
Definition rebinds (callId : string) (o : Op) : bool :=
  match o with
  | Register p _ _ | Start p _ _ => bool_decide (p_toolCallId p = callId)
  | _ => false
  end.

(** Every terminal record of the store carries an end timestamp. *)
Definition terminal_has_end (st : ToolExecutionsStore) : Prop :=
  ∀ i e, executions st !! i = Some e →
         terminal (status e) = true → is_Some (endTime e).

(** [clearToolExecutions] *)
Definition clearToolExecutions (st : ToolExecutionsStore)
  : ToolExecutionsStore := INITIAL_STATE.

(** The store is consistent: [executionOrder] lists every call id that
    has a record, once, and every record is stored under its own
    [toolCallId]. *)
Definition consistent (st : ToolExecutionsStore) : Prop :=
  NoDup (executionOrder st)
  ∧ (∀ i, i ∈ executionOrder st ↔ is_Some (executions st !! i))
  ∧ (∀ i e, executions st !! i = Some e → toolCallId e = i).

(** The record [updateToolExecution] writes. *)
Definition with_partialResult (r : ToolExecutionResult) (e : ToolExecution)
  : ToolExecution :=
  {| toolCallId := toolCallId e;
     toolName := toolName e;
     args := args e;
     status := status e;
     partialResult := Some r;
     result := result e;
     isError := isError e;
     startTime := startTime e;
     endTime := endTime e;
     messageId := messageId e |}.

(** Sample surroundings used to exercise the tracker. *)
Definition sample_idle : MessagesStore :=
  {| messages := [];
     streamingContent := EmptyString;
     thinkingContent := EmptyString;
     currentMessageId := None |}.

Definition sample_streaming (mid : string) : MessagesStore :=
  {| messages := [ {| id := mid; role := assistant; content := EmptyString;
                      timestamp := 0 |} ];
     streamingContent := EmptyString;
     thinkingContent := EmptyString;
     currentMessageId := Some mid |}.

Definition sample_result : ToolExecutionResult :=
  {| result_content := Some [JObject [("type", JString "text");
                                      ("text", JString "done")]]%string;
     result_details := None |}.

End ToolExecutions.

(* ===================================================================== *)
(** * The tracker with [executions] read as a JavaScript object            *)
(* ===================================================================== *)

(** [state.executions] is a plain object.  [state.executions[id]] gives
    the object's own property when it has one and otherwise what
    [Object.prototype] provides under that name; and a record is a
    JavaScript object, any field of which may be missing.  This module
    embeds the same functions with both made explicit.  For call ids that
    no object inherits, and stores of complete records, it coincides with
    the finite-map reading above (see [of_store]). *)

Module ToolExecutionsJs.
Import ToolExecutions.

(** The property names every object inherits from [Object.prototype]. *)
Definition inherited_names : list string :=
  ["constructor"; "hasOwnProperty"; "isPrototypeOf"; "propertyIsEnumerable";
   "toLocaleString"; "toString"; "valueOf"; "__proto__";
   "__defineGetter__"; "__defineSetter__"; "__lookupGetter__";
   "__lookupSetter__"]%string.

Definition inherited_name (k : string) : bool :=
  bool_decide (k ∈ inherited_names).

(** A record as an object: every field may be missing. *)
Record JsExecution : Type := {
  js_toolCallId : option string;
  js_toolName : option string;
  js_args : option json;
  js_status : option ToolStatus;
  js_partialResult : option ToolExecutionResult;
  js_result : option ToolExecutionResult;
  js_isError : option bool;
  js_startTime : option Z;
  js_endTime : option Z;
  js_messageId : option string
}.

(** What an inherited value (a function, or the prototype itself) looks
    like to this code: it is truthy, spreading it copies nothing and
    reading any of the record's fields gives [undefined]. *)
Definition inherited_value : JsExecution :=
  {| js_toolCallId := None; js_toolName := None; js_args := None;
     js_status := None; js_partialResult := None; js_result := None;
     js_isError := None; js_startTime := None; js_endTime := None;
     js_messageId := None |}.

(** The store: the own properties of [executions], and [executionOrder]. *)
Record JsStore : Type := {
  js_executions : gmap string JsExecution;
  js_executionOrder : list string
}.

Definition INITIAL_STATE : JsStore :=
  {| js_executions := ∅; js_executionOrder := [] |}.

(** [executions[k]]; [None] is [undefined]. *)
Definition get_property (o : gmap string JsExecution) (k : string)
  : option JsExecution :=
  match o !! k with
  | Some e => Some e
  | None => if inherited_name k then Some inherited_value else None
  end.

(** [registerToolCall] *)
Definition registerToolCall (params : ToolCallParams) (msgs : MessagesStore)
    (now : Z) (st : JsStore) : JsStore :=
  let messageId' := resolveCurrentAssistantMessageId msgs in
  let existing := get_property (js_executions st) (p_toolCallId params) in
  {| js_executions :=
       <[ p_toolCallId params :=
            match existing with
            | Some e =>
                {| js_toolCallId := js_toolCallId e;
                   js_toolName := Some (p_toolName params);
                   js_args := Some (p_args params);
                   js_status := js_status e;
                   js_partialResult := js_partialResult e;
                   js_result := js_result e;
                   js_isError := js_isError e;
                   js_startTime := js_startTime e;
                   js_endTime := js_endTime e;
                   js_messageId :=
                     match js_messageId e with
                     | Some m => Some m
                     | None => messageId'
                     end |}
            | None =>
                {| js_toolCallId := Some (p_toolCallId params);
                   js_toolName := Some (p_toolName params);
                   js_args := Some (p_args params);
                   js_status := Some called;
                   js_partialResult := None;
                   js_result := None;
                   js_isError := None;
                   js_startTime := Some now;
                   js_endTime := None;
                   js_messageId := messageId' |}
            end ]> (js_executions st);
     js_executionOrder :=
       order_with (p_toolCallId params) (js_executionOrder st) |}.

(** [startToolExecution] *)
Definition startToolExecution (params : ToolCallParams) (msgs : MessagesStore)
    (now : Z) (st : JsStore) : JsStore :=
  let messageId' := resolveCurrentAssistantMessageId msgs in
  let existing := get_property (js_executions st) (p_toolCallId params) in
  {| js_executions :=
       <[ p_toolCallId params :=
            {| js_toolCallId := Some (p_toolCallId params);
               js_toolName := Some (p_toolName params);
               js_args := Some (p_args params);
               js_status := Some running;
               js_partialResult := existing ≫= js_partialResult;
               js_result := existing ≫= js_result;
               js_isError := existing ≫= js_isError;
               js_startTime := Some (nullish (existing ≫= js_startTime) now);
               js_endTime := existing ≫= js_endTime;
               js_messageId :=
                 match existing ≫= js_messageId with
                 | Some m => Some m
                 | None => messageId'
                 end |} ]> (js_executions st);
     js_executionOrder :=
       order_with (p_toolCallId params) (js_executionOrder st) |}.

(** [updateToolExecution] *)
Definition updateToolExecution (callId : string)
    (partial : ToolExecutionResult) (st : JsStore) : JsStore :=
  match get_property (js_executions st) callId with
  | None => st
  | Some e =>
      {| js_executions :=
           <[ callId :=
                {| js_toolCallId := js_toolCallId e;
                   js_toolName := js_toolName e;
                   js_args := js_args e;
                   js_status := js_status e;
                   js_partialResult := Some partial;
                   js_result := js_result e;
                   js_isError := js_isError e;
                   js_startTime := js_startTime e;
                   js_endTime := js_endTime e;
                   js_messageId := js_messageId e |} ]> (js_executions st);
         js_executionOrder := js_executionOrder st |}
  end.

(** [finishToolExecution] *)
Definition finishToolExecution (callId : string) (res : ToolExecutionResult)
    (is_error : bool) (now : Z) (st : JsStore) : JsStore :=
  match get_property (js_executions st) callId with
  | None => st
  | Some e =>
      {| js_executions :=
           <[ callId :=
                {| js_toolCallId := js_toolCallId e;
                   js_toolName := js_toolName e;
                   js_args := js_args e;
                   js_status := Some (if is_error then error else completed);
                   js_partialResult := js_partialResult e;
                   js_result := Some res;
                   js_isError := Some is_error;
                   js_startTime := js_startTime e;
                   js_endTime := Some now;
                   js_messageId := js_messageId e |} ]> (js_executions st);
         js_executionOrder := js_executionOrder st |}
  end.

(** [getToolExecutionsForMessage] *)
Definition getToolExecutionsForMessage (mid : string) (st : JsStore)
  : list JsExecution :=
  filter (fun e => js_messageId e = Some mid)
         (omap (get_property (js_executions st)) (js_executionOrder st)).

(** [hasToolExecutionsForMessage] *)
Definition hasToolExecutionsForMessage (mid : string) (st : JsStore) : bool :=
  bool_decide (0 < length (getToolExecutionsForMessage mid st)).

Definition apply_op (o : Op) (st : JsStore) : JsStore :=
  match o with
  | Register p m t => registerToolCall p m t st
  | Start p m t => startToolExecution p m t st
  | Update i r => updateToolExecution i r st
  | Finish i r b t => finishToolExecution i r b t st
  end.

Definition apply_ops (ops : list Op) (st : JsStore) : JsStore :=
  fold_left (fun s o => apply_op o s) ops st.

(** A complete record, and a store of complete records, as objects. *)
Definition of_record (e : ToolExecution) : JsExecution :=
  {| js_toolCallId := Some (toolCallId e);
     js_toolName := Some (toolName e);
     js_args := Some (args e);
     js_status := Some (status e);
     js_partialResult := partialResult e;
     js_result := result e;
     js_isError := isError e;
     js_startTime := Some (startTime e);
     js_endTime := endTime e;
     js_messageId := messageId e |}.

Definition of_store (st : ToolExecutionsStore) : JsStore :=
  {| js_executions := of_record <$> executions st;
     js_executionOrder := executionOrder st |}.

(** No operation of the run is on an inherited name. *)
Definition ordinary (ops : list Op) : Prop :=
  Forall (fun o => inherited_name (op_id o) = false) ops.

End ToolExecutionsJs.

(* ===================================================================== *)
(** * Properties of the tool execution tracker                             *)
(* ===================================================================== *)

Module ToolExecutionsFacts.
Import ToolExecutions.

Ltac unfold_ops :=
  unfold apply_op, registerToolCall, startToolExecution,
    updateToolExecution, finishToolExecution in *; simpl in *.

Lemma apply_ops_app (ops1 ops2 : list Op) (st : ToolExecutionsStore) :
  apply_ops (ops1 ++ ops2) st = apply_ops ops2 (apply_ops ops1 st).
Proof. unfold apply_ops. apply fold_left_app. Qed.

Lemma apply_ops_cons (o : Op) (ops : list Op) (st : ToolExecutionsStore) :
  apply_ops (o :: ops) st = apply_ops ops (apply_op o st).
Proof. reflexivity. Qed.

(** An operation touches the record of its own call id only. *)
Lemma apply_op_frame (o : Op) (st : ToolExecutionsStore) (i : string) :
  op_id o ≠ i → executions (apply_op o st) !! i = executions st !! i.
Proof.
  intros Hne. destruct o as [p m t|p m t|j r|j r b t]; unfold_ops.
  - by rewrite lookup_insert_ne.
  - by rewrite lookup_insert_ne.
  - destruct (executions st !! j); simpl; [by rewrite lookup_insert_ne|done].
  - destruct (executions st !! j); simpl; [by rewrite lookup_insert_ne|done].
Qed.

(** What an operation stores under its own call id depends on the record
    found there and on nothing else in the store. *)
Lemma apply_op_local (o : Op) (st st' : ToolExecutionsStore) :
  executions st !! op_id o = executions st' !! op_id o →
  executions (apply_op o st) !! op_id o
  = executions (apply_op o st') !! op_id o.
Proof.
  intros Heq. destruct o as [p m t|p m t|j r|j r b t]; unfold_ops.
  - by rewrite !lookup_insert_eq, Heq.
  - by rewrite !lookup_insert_eq, Heq.
  - rewrite Heq. destruct (executions st' !! j) eqn:E; simpl.
    + by rewrite !lookup_insert_eq.
    + congruence.
  - rewrite Heq. destruct (executions st' !! j) eqn:E; simpl.
    + by rewrite !lookup_insert_eq.
    + congruence.
Qed.

(** The record of a call id after a run is the one obtained from the
    operations on that id alone. *)
Lemma apply_ops_project (i : string) (ops : list Op) :
  ∀ st st' : ToolExecutionsStore,
    executions st !! i = executions st' !! i →
    executions (apply_ops ops st) !! i
    = executions (apply_ops (filter (λ o, op_id o = i) ops) st') !! i.
Proof.
  induction ops as [|o ops IH]; intros st st' Heq; [done|].
  rewrite apply_ops_cons, filter_cons. case_decide as Hid.
  - rewrite apply_ops_cons. apply IH. subst i. by apply apply_op_local.
  - apply IH. by rewrite apply_op_frame.
Qed.

(** Records are never removed. *)
Lemma apply_op_keeps (o : Op) (st : ToolExecutionsStore) (i : string) :
  is_Some (executions st !! i) → is_Some (executions (apply_op o st) !! i).
Proof.
  intros Hs. destruct (decide (op_id o = i)) as [<-|Hne];
    [|by rewrite apply_op_frame].
  destruct o as [p m t|p m t|j r|j r b t]; unfold_ops.
  - rewrite lookup_insert_eq. eauto.
  - rewrite lookup_insert_eq. eauto.
  - destruct Hs as [e He]. rewrite He. simpl. rewrite lookup_insert_eq. eauto.
  - destruct Hs as [e He]. rewrite He. simpl. rewrite lookup_insert_eq. eauto.
Qed.

Lemma apply_op_terminal_has_end (o : Op) (st : ToolExecutionsStore) :
  terminal_has_end st → terminal_has_end (apply_op o st).
Proof.
  intros Hinv i e' Hlook Hterm.
  destruct (decide (op_id o = i)) as [<-|Hne];
    [|rewrite apply_op_frame in Hlook by done; eauto].
  destruct o as [p m t|p m t|j r|j r b t]; unfold_ops.
  - rewrite lookup_insert_eq in Hlook. injection Hlook as <-.
    destruct (executions st !! p_toolCallId p) as [e|] eqn:E; simpl in *;
      [eauto|done].
  - rewrite lookup_insert_eq in Hlook. by injection Hlook as <-.
  - destruct (executions st !! j) as [e|] eqn:E; simpl in *; [|congruence].
    rewrite lookup_insert_eq in Hlook. injection Hlook as <-. simpl in *. eauto.
  - destruct (executions st !! j) as [e|] eqn:E; simpl in *; [|congruence].
    rewrite lookup_insert_eq in Hlook. injection Hlook as <-. simpl. eauto.
Qed.

Lemma reachable_terminal_has_end (ops : list Op) :
  terminal_has_end (apply_ops ops INITIAL_STATE).
Proof.
  induction ops as [|o ops IH] using rev_ind.
  - intros i e Hlook. simpl in Hlook. by rewrite lookup_empty in Hlook.
  - rewrite apply_ops_app. by apply apply_op_terminal_has_end.
Qed.

(** One step seen from a record that exists already. *)
Lemma apply_op_status (o : Op) (st : ToolExecutionsStore) (i : string)
    (e : ToolExecution) :
  executions st !! i = Some e →
  ∃ e', executions (apply_op o st) !! i = Some e'
        ∧ (∀ m, messageId e = Some m → messageId e' = Some m)
        ∧ startTime e' = startTime e
        ∧ (restarts i o = false → finishes i o = false →
           status e' = status e)
        ∧ (restarts i o = true → status e' = running)
        ∧ (finishes i o = true → terminal (status e') = true).
Proof.
  intros He. destruct (decide (op_id o = i)) as [<-|Hne].
  - destruct o as [p m t|p m t|j r|j r b t]; unfold_ops; rewrite ?He; simpl;
      rewrite lookup_insert_eq; eexists; (split; [reflexivity|]); simpl;
      repeat split; try done; try (by intros m' ->);
      try (by rewrite bool_decide_eq_true_2); by destruct b.
  - exists e. rewrite apply_op_frame by done. repeat split; try done.
    + destruct o; simpl in *; try done. by rewrite bool_decide_eq_false_2.
    + destruct o; simpl in *; try done. by rewrite bool_decide_eq_false_2.
Qed.

(** ** The model on the usual scenarios *)

Example resolve_streaming_message :
  resolveCurrentAssistantMessageId
    {| messages := [ {| id := "a1"; role := assistant;
                        content := "Hi"; timestamp := 1 |} ];
       streamingContent := EmptyString; thinkingContent := EmptyString;
       currentMessageId := Some "a2" |}
  = Some "a2".
Proof. reflexivity. Qed.

Example resolve_last_assistant :
  resolveCurrentAssistantMessageId
    {| messages := [ {| id := "a1"; role := assistant;
                        content := "Hi"; timestamp := 1 |};
                     {| id := "a2"; role := assistant;
                        content := "Yes"; timestamp := 2 |};
                     {| id := "u3"; role := user;
                        content := "Thanks"; timestamp := 3 |} ];
       streamingContent := EmptyString; thinkingContent := EmptyString;
       currentMessageId := None |}
  = Some "a2".
Proof. reflexivity. Qed.

Example resolve_never_a_user_message :
  resolveCurrentAssistantMessageId
    {| messages := [ {| id := "u1"; role := user;
                        content := "Hello"; timestamp := 1 |} ];
       streamingContent := EmptyString; thinkingContent := EmptyString;
       currentMessageId := None |}
  = None.
Proof. reflexivity. Qed.

Example executions_listed_in_registration_order :
  let p := {| p_toolCallId := "call-1"; p_toolName := "bash";
              p_args := JObject [] |} in
  let q := {| p_toolCallId := "call-2"; p_toolName := "read";
              p_args := JObject [] |} in
  let st := apply_ops [Register q (sample_streaming "msg-1") 10;
                       Register p (sample_streaming "msg-1") 11;
                       Start q (sample_streaming "msg-1") 12;
                       Register p (sample_streaming "msg-2") 13]
              INITIAL_STATE in
  executionOrder st = ["call-2"; "call-1"]
  ∧ toolCallId <$> getToolExecutionsForMessage "msg-1" st
    = ["call-2"; "call-1"]
  ∧ hasToolExecutionsForMessage "msg-2" st = false.
Proof. vm_compute. done. Qed.

(** A run that keeps a record's owning message once it has one. *)
Lemma apply_ops_binding (ops : list Op) :
  ∀ (st : ToolExecutionsStore) (i : string) (e : ToolExecution) (m : string),
    executions st !! i = Some e → messageId e = Some m →
    ∃ e', executions (apply_ops ops st) !! i = Some e'
          ∧ messageId e' = Some m.
Proof.
  induction ops as [|o ops IH]; intros st i e m He Hm; [by eauto|].
  rewrite apply_ops_cons.
  destruct (apply_op_status o st i e He) as (e1 & He1 & Hm1 & _).
  eauto.
Qed.


(** ** The claims *)

(** One step seen from a record that exists already, field by field. *)
Lemma apply_op_exact (o : Op) (st : ToolExecutionsStore) (i : string)
    (e : ToolExecution) :
  executions st !! i = Some e →
  ∃ e', executions (apply_op o st) !! i = Some e'
        ∧ (restarts i o = true → status e' = running)
        ∧ (∀ j r b t, o = Finish j r b t → j = i →
           status e' = (if b then error else completed)
           ∧ endTime e' = Some t ∧ result e' = Some r)
        ∧ (restarts i o = false → finishes i o = false →
           status e' = status e)
        ∧ (∀ m, messageId e = Some m → messageId e' = Some m)
        ∧ (messageId e = None → rebinds i o = false → messageId e' = None)
        ∧ (messageId e = None →
           ∀ p msgs t, o = Register p msgs t ∨ o = Start p msgs t →
                       p_toolCallId p = i →
                       messageId e' = resolveCurrentAssistantMessageId msgs).
Proof.
  intros He. destruct (decide (op_id o = i)) as [<-|Hne].
  - destruct o as [p m t|p m t|j r|j r b t]; unfold_ops; rewrite ?He; simpl;
      rewrite lookup_insert_eq; eexists; (split; [reflexivity|]); simpl;
      rewrite ?bool_decide_eq_true_2 by done;
      repeat split; try done; try (by intros m' ->);
      try (intros; simplify_eq; done);
      try (intros Hnone p' msgs' t' [Ho | Ho] _; simplify_eq;
           by rewrite ?Hnone).
  - exists e. rewrite apply_op_frame by done.
    repeat split; try done; try (subst; simpl in *; congruence).
    + destruct o; simpl in *; try done. by rewrite bool_decide_eq_false_2.
    + intros _ p' msgs' t' [-> | ->] <-; done.
Qed.

(** C3 (as amended).  In every store reached from the initial one by
    [registerToolCall], [startToolExecution], [updateToolExecution] and
    [finishToolExecution], and for every call id with a record, the next
    operation keeps the record and decides its status as follows:
    [startToolExecution] on that id sets it to running, also when it was
    completed or error, which is the only way the status moves backward
    in the order called, running, completed | error;
    [finishToolExecution] on that id sets it to error when [isError] is
    true and to completed otherwise, also when it was completed or error
    already, and sets the end timestamp; every other operation
    ([registerToolCall], [updateToolExecution], anything on another id)
    leaves the status as it is.  And a record whose status is completed
    or error carries an end timestamp. *)
Theorem tool_status_progress :
  ∀ (ops : list Op) (o : Op) (callId : string) (e : ToolExecution),
    executions (apply_ops ops INITIAL_STATE) !! callId = Some e →
    ∃ e', executions (apply_op o (apply_ops ops INITIAL_STATE)) !! callId
          = Some e'
          ∧ (rank (status e) ≤ rank (status e')
             ∨ (restarts callId o = true ∧ terminal (status e) = true
                ∧ status e' = running))
          ∧ (terminal (status e) = true →
             restarts callId o = false → finishes callId o = false →
             status e' = status e)
          ∧ (terminal (status e) = true → is_Some (endTime e))
          ∧ (terminal (status e') = true → is_Some (endTime e'))
          ∧ (restarts callId o = true → status e' = running)
          ∧ (∀ r b t, o = Finish callId r b t →
             status e' = (if b then error else completed)
             ∧ endTime e' = Some t)
          ∧ (restarts callId o = false → finishes callId o = false →
             status e' = status e).
Proof.
  intros ops o callId e He.
  destruct (apply_op_exact o _ callId e He)
    as (e' & He' & Hstart & Hfin & Hsame & _).
  exists e'. split; [done|].
  split; [|split; [|split; [|split; [|split; [|split]]]]].
  - destruct (restarts callId o) eqn:Er.
    + rewrite (Hstart eq_refl).
      destruct (status e) eqn:Es; simpl; auto.
    + destruct (finishes callId o) eqn:Ef.
      * left. destruct o as [| |?|j r b t]; try discriminate Ef.
        simpl in Ef. apply bool_decide_eq_true in Ef.
        destruct (Hfin j r b t eq_refl Ef) as (-> & _).
        destruct b, (status e); simpl; lia.
      * left. by rewrite Hsame.
  - intros _ Hr Hf. by apply Hsame.
  - intros Ht. by eapply (reachable_terminal_has_end ops).
  - intros Ht.
    apply (reachable_terminal_has_end (ops ++ [o]) callId e'); [|done].
    by rewrite apply_ops_app.
  - exact Hstart.
  - intros r b t ->. destruct (Hfin callId r b t eq_refl eq_refl)
      as (Hs & Ht & _). by split.
  - exact Hsame.
Qed.

(** C3, what the claim says fails: a completed record that is started
    again is running, with the end timestamp of its completion; and a
    completed record that is finished again, with [isError] true, is in
    error. *)
Lemma completed_call_restarted :
  let p := {| p_toolCallId := "call-1"; p_toolName := "bash";
              p_args := JObject [] |} in
  let ops := [Register p sample_idle 10; Start p sample_idle 11;
              Finish "call-1" sample_result false 12] in
  status <$> executions (apply_ops ops INITIAL_STATE) !! "call-1"
  = Some completed
  ∧ status <$> executions (apply_op (Start p sample_idle 13)
                             (apply_ops ops INITIAL_STATE)) !! "call-1"
    = Some running
  ∧ ¬ (rank completed ≤ rank running)
  ∧ status <$> executions (apply_op (Finish "call-1" sample_result true 13)
                             (apply_ops ops INITIAL_STATE)) !! "call-1"
    = Some error.
Proof.
  split; [vm_compute; reflexivity|]. split; [vm_compute; reflexivity|].
  split; [simpl; lia|]. vm_compute; reflexivity.
Qed.

Lemma tool_status_progress_witness :
  let p := {| p_toolCallId := "call-1"; p_toolName := "bash";
              p_args := JObject [] |} in
  ∃ e', executions
          (apply_op (Finish "call-1" sample_result true 12)
             (apply_ops [Register p sample_idle 10; Start p sample_idle 11]
                INITIAL_STATE)) !! "call-1" = Some e'
        ∧ status e' = error ∧ is_Some (endTime e').
Proof.
  intros p.
  destruct (tool_status_progress
              [Register p sample_idle 10; Start p sample_idle 11]
              (Finish "call-1" sample_result true 12) "call-1"
              {| toolCallId := "call-1"; toolName := "bash";
                 args := JObject []; status := running;
                 partialResult := None; result := None; isError := None;
                 startTime := 10; endTime := None; messageId := None |}
              ltac:(vm_compute; reflexivity))
    as (e' & He' & _ & _ & _ & Hend & _ & Hfin & _).
  exists e'. split; [exact He'|].
  destruct (Hfin sample_result true 12%Z eq_refl) as [Hs _].
  split; [exact Hs|]. apply Hend. by rewrite Hs.
Defined.

(** C4 (as amended).  When the first registration of a call id, by
    [registerToolCall] or by [startToolExecution], resolves to a message
    id (the streaming message, else the last assistant message), that id
    is stored and no later sequence of operations changes it, whatever the
    messages store holds when they run.  In general a stored message id
    is kept by every operation; a binding that is still null is kept null
    by [updateToolExecution], [finishToolExecution] and the operations on
    other ids, and is replaced, by the next [registerToolCall] or
    [startToolExecution] on that id, with what that one resolves to. *)
Theorem owning_message_fixed :
  ∀ (st : ToolExecutionsStore) (p : ToolCallParams) (msgs : MessagesStore)
    (now : Z) (m : string) (first : Op) (later : list Op),
    executions st !! p_toolCallId p = None →
    resolveCurrentAssistantMessageId msgs = Some m →
    first = Register p msgs now ∨ first = Start p msgs now →
    (∃ e, executions (apply_ops (first :: later) st) !! p_toolCallId p
          = Some e
          ∧ messageId e = Some m)
    ∧ ∀ (st' : ToolExecutionsStore) (o : Op) (e : ToolExecution),
        executions st' !! p_toolCallId p = Some e →
        ∃ e', executions (apply_op o st') !! p_toolCallId p = Some e'
              ∧ (∀ m0, messageId e = Some m0 → messageId e' = Some m0)
              ∧ (messageId e = None → rebinds (p_toolCallId p) o = false →
                 messageId e' = None)
              ∧ (messageId e = None →
                 ∀ p' msgs' t',
                   o = Register p' msgs' t' ∨ o = Start p' msgs' t' →
                   p_toolCallId p' = p_toolCallId p →
                   messageId e' = resolveCurrentAssistantMessageId msgs').
Proof.
  intros st p msgs now m first later Hfresh Hres Hfirst. split.
  - rewrite apply_ops_cons.
    assert (∃ e0, executions (apply_op first st) !! p_toolCallId p = Some e0
                  ∧ messageId e0 = Some m) as (e0 & He0 & Hm0).
    { destruct Hfirst as [-> | ->]; unfold_ops; rewrite Hfresh; simpl;
        rewrite lookup_insert_eq; eexists; (split; [reflexivity|]); simpl;
        exact Hres. }
    by apply (apply_ops_binding later _ _ e0 m).
  - intros st' o e He.
    destruct (apply_op_exact o st' _ e He)
      as (e' & He' & _ & _ & _ & Hkeep & Hnull & Hfill).
    exists e'. by repeat split.
Qed.

(** C4, what the claim says fails: a call registered while there is no
    assistant message is bound to null, and a later [startToolExecution]
    binds it to the message streaming then. *)
Lemma null_binding_filled_later :
  let p := {| p_toolCallId := "call-1"; p_toolName := "bash";
              p_args := JObject [] |} in
  let st1 := apply_op (Register p sample_idle 10) INITIAL_STATE in
  let st2 := apply_op (Start p (sample_streaming "msg-2") 11) st1 in
  resolveCurrentAssistantMessageId sample_idle = None
  ∧ messageId <$> executions st1 !! "call-1" = Some None
  ∧ messageId <$> executions st2 !! "call-1" = Some (Some "msg-2")
  ∧ messageId <$> executions st1 !! "call-1"
    ≠ messageId <$> executions st2 !! "call-1".
Proof.
  repeat split; [vm_compute; reflexivity .. |].
  vm_compute. discriminate.
Qed.

Lemma owning_message_fixed_witness :
  let p := {| p_toolCallId := "call-1"; p_toolName := "bash";
              p_args := JObject [] |} in
  ∃ e, executions
         (apply_ops [Register p (sample_streaming "msg-1") 10;
                     Start p (sample_streaming "msg-2") 11;
                     Finish "call-1" sample_result false 12]
            INITIAL_STATE) !! "call-1" = Some e
       ∧ messageId e = Some "msg-1".
Proof.
  intros p.
  apply (owning_message_fixed INITIAL_STATE p (sample_streaming "msg-1") 10
           "msg-1" (Register p (sample_streaming "msg-1") 10)
           [Start p (sample_streaming "msg-2") 11;
            Finish "call-1" sample_result false 12]).
  - reflexivity.
  - reflexivity.
  - left. reflexivity.
Defined.



End ToolExecutionsFacts.

(* ===================================================================== *)
(** * Properties of the WebSocket client                                   *)
(* ===================================================================== *)

Module WsClientFacts.
Import WsClient.
Local Open Scope action_scope.

Ltac unfold_actions :=
  unfold handle, timerCallback, onVisibilityChange, onOnline, reconnectNow,
    disconnect, onopen, onmessage, onerror, onclose, connect,
    scheduleReconnect, cleanupVisibilityHandlers, setState, andThen, when,
    modify, emit, skip in *.

Ltac split_client c :=
  destruct c as [sock opts st attempt timer should vis onl]; simpl in *.

Section Runs.

Variable host : Host.

Lemma run_app (tr1 tr2 : list Input) (c : WebSocketClient) :
  run host (tr1 ++ tr2) c
  = (run host tr1 ;; run host tr2) c.
Proof.
  revert c. induction tr1 as [|i tr1 IH]; intros c; simpl.
  - unfold andThen, skip. by destruct (run host tr2 c).
  - unfold andThen in *. destruct (handle host i c) as [c1 out1].
    rewrite IH. destruct (run host tr1 c1) as [c2 out2].
    destruct (run host tr2 c2) as [c3 out3]. by rewrite app_assoc.
Qed.

Lemma run_cons (i : Input) (tr : list Input) (c : WebSocketClient) :
  run host (i :: tr) c = (handle host i ;; run host tr) c.
Proof. reflexivity. Qed.

Lemma scheduled_delays_app (a b : list Effect) :
  scheduled_delays (a ++ b) = scheduled_delays a ++ scheduled_delays b.
Proof. unfold scheduled_delays. apply omap_app. Qed.

(** A quiet input sets no timer and leaves the attempt counter alone; the
    pending timer stays, or is consumed. *)
Lemma quiet_step (i : Input) (c : WebSocketClient) :
  quiet i = true → shouldReconnect c = true →
  options (handle host i c).1 = options c
  ∧ reconnectAttempt (handle host i c).1 = reconnectAttempt c
  ∧ shouldReconnect (handle host i c).1 = true
  ∧ scheduled_delays (handle host i c).2 = []
  ∧ (reconnectTimer c = None → reconnectTimer (handle host i c).1 = None)
  ∧ (i = TimerFired → reconnectTimer (handle host i c).1 = None).
Proof.
  intros Hq Hs. split_client c. subst should.
  destruct i; try discriminate Hq; unfold_actions; simpl;
    repeat (case_match; simplify_eq/=); repeat split; try done.
Qed.

Lemma run_app_fst (tr1 tr2 : list Input) (c : WebSocketClient) :
  (run host (tr1 ++ tr2) c).1 = (run host tr2 (run host tr1 c).1).1.
Proof.
  rewrite run_app. unfold andThen. destruct (run host tr1 c) as [c1 o1].
  simpl. by destruct (run host tr2 c1).
Qed.

Lemma run_app_snd (tr1 tr2 : list Input) (c : WebSocketClient) :
  (run host (tr1 ++ tr2) c).2
  = (run host tr1 c).2 ++ (run host tr2 (run host tr1 c).1).2.
Proof.
  rewrite run_app. unfold andThen. destruct (run host tr1 c) as [c1 o1].
  simpl. by destruct (run host tr2 c1).
Qed.

Lemma run_one (i : Input) (c : WebSocketClient) :
  run host [i] c = handle host i c.
Proof.
  simpl. unfold andThen, skip. destruct (handle host i c) as [c1 o1].
  by rewrite app_nil_r.
Qed.

Lemma run_cons_fst (i : Input) (tr : list Input) (c : WebSocketClient) :
  (run host (i :: tr) c).1 = (run host tr (handle host i c).1).1.
Proof. by rewrite (run_app_fst [i] tr), run_one. Qed.

Lemma run_cons_snd (i : Input) (tr : list Input) (c : WebSocketClient) :
  (run host (i :: tr) c).2
  = (handle host i c).2 ++ (run host tr (handle host i c).1).2.
Proof. by rewrite (run_app_snd [i] tr), run_one. Qed.

(** The same for a whole segment of quiet inputs. *)
Lemma quiet_run (seg : list Input) :
  ∀ c : WebSocketClient,
    Forall (λ i, quiet i = true) seg → shouldReconnect c = true →
    options (run host seg c).1 = options c
    ∧ reconnectAttempt (run host seg c).1 = reconnectAttempt c
    ∧ shouldReconnect (run host seg c).1 = true
    ∧ scheduled_delays (run host seg c).2 = []
    ∧ (reconnectTimer c = None → reconnectTimer (run host seg c).1 = None)
    ∧ (TimerFired ∈ seg → reconnectTimer (run host seg c).1 = None).
Proof.
  induction seg as [|i seg IH]; intros c Hq Hs.
  - simpl. repeat split; try done. intros Hin. by apply elem_of_nil in Hin.
  - apply Forall_cons in Hq as [Hi Hq].
    destruct (quiet_step i c Hi Hs) as (Ho & Ha & Hs1 & Hd & Ht & Hf).
    destruct (IH _ Hq Hs1) as (Ho' & Ha' & Hs' & Hd' & Ht' & Hf').
    rewrite run_cons_fst, run_cons_snd, scheduled_delays_app, Hd, Hd'.
    repeat split; try congruence; try done.
    + intros Hn. auto.
    + intros Hin. apply elem_of_cons in Hin as [<- | Hin]; auto.
Qed.

(** An unexpected close with no timer pending sets one, with the delay of
    the current attempt, and counts the attempt. *)
Lemma close_schedules (c : WebSocketClient) :
  reconnectTimer c = None → shouldReconnect c = true →
  opt_reconnect (options c) = true →
  options (handle host SocketClosed c).1 = options c
  ∧ reconnectAttempt (handle host SocketClosed c).1 = S (reconnectAttempt c)
  ∧ shouldReconnect (handle host SocketClosed c).1 = true
  ∧ scheduled_delays (handle host SocketClosed c).2
    = [backoff_delay (options c) (reconnectAttempt c)].
Proof.
  intros Ht Hs Hr. split_client c. subst. unfold_actions. simpl.
  by rewrite Hr.
Qed.

(** Every further close, once the timer of the previous one has fired. *)
Lemma later_closes (rest : list (list Input)) :
  ∀ c : WebSocketClient,
    shouldReconnect c = true → opt_reconnect (options c) = true →
    Forall (λ seg, Forall (λ i, quiet i = true) seg ∧ TimerFired ∈ seg)
           rest →
    let tr := concat (map (λ seg, seg ++ [SocketClosed]) rest) in
    options (run host tr c).1 = options c
    ∧ shouldReconnect (run host tr c).1 = true
    ∧ reconnectAttempt (run host tr c).1 = reconnectAttempt c + length rest
    ∧ scheduled_delays (run host tr c).2
      = map (backoff_delay (options c))
            (seq (reconnectAttempt c) (length rest)).
Proof.
  induction rest as [|seg rest IH]; intros c Hs Hr Hrest; simpl.
  - repeat split; try done; lia.
  - apply Forall_cons in Hrest as [[Hq Hfired] Hrest].
    destruct (quiet_run seg c Hq Hs) as (Ho1 & Ha1 & Hs1 & Hd1 & _ & Ht1).
    specialize (Ht1 Hfired).
    set (c1 := (run host seg c).1) in *.
    assert (Hr1 : opt_reconnect (options c1) = true) by congruence.
    destruct (close_schedules c1 Ht1 Hs1 Hr1) as (Ho2 & Ha2 & Hs2 & Hd2).
    set (c2 := (handle host SocketClosed c1).1) in *.
    assert (Hr2 : opt_reconnect (options c2) = true) by congruence.
    destruct (IH c2 Hs2 Hr2 Hrest) as (Ho3 & Hs3 & Ha3 & Hd3).
    rewrite <- !app_assoc.
    rewrite !run_app_fst, !run_app_snd, !run_one, !scheduled_delays_app.
    fold c1. fold c2. rewrite Hd1, Hd2, Hd3, Ho3, Ha3, Ho2, Ha2, Ho1, Ha1.
    repeat split; try done; try lia.
Qed.

(** While the state is [connected], reconnection is enabled and neither
    an error event nor [disconnect] arrives, the state stays [connected],
    the consumer hears of no state change and no socket is constructed. *)
Lemma connected_step (i : Input) (c : WebSocketClient) :
  i ≠ SocketErrored → i ≠ Disconnect →
  state c = connected → shouldReconnect c = true →
  opt_reconnect (options c) = true →
  state (handle host i c).1 = connected
  ∧ shouldReconnect (handle host i c).1 = true
  ∧ options (handle host i c).1 = options c
  ∧ state_changes (handle host i c).2 = []
  ∧ Forall (λ e, opens_socket e = false) (handle host i c).2.
Proof.
  intros He Hd Hst Hs Hr. split_client c. subst.
  destruct i; try done; unfold_actions; simpl; rewrite ?Hr; simpl;
    repeat (case_match; simplify_eq/=); repeat split; try done;
    repeat constructor.
Qed.

Lemma state_changes_app (a b : list Effect) :
  state_changes (a ++ b) = state_changes a ++ state_changes b.
Proof. unfold state_changes. apply omap_app. Qed.

Lemma connected_run (tr : list Input) :
  ∀ c : WebSocketClient,
    Forall (λ i, i ≠ SocketErrored ∧ i ≠ Disconnect) tr →
    state c = connected → shouldReconnect c = true →
    opt_reconnect (options c) = true →
    state (run host tr c).1 = connected
    ∧ state_changes (run host tr c).2 = []
    ∧ Forall (λ e, opens_socket e = false) (run host tr c).2.
Proof.
  induction tr as [|i tr IH]; intros c Htr Hst Hs Hr.
  - simpl. repeat split; try done.
  - apply Forall_cons in Htr as [[He Hd] Htr].
    destruct (connected_step i c He Hd Hst Hs Hr)
      as (Hst1 & Hs1 & Ho1 & Hc1 & Hn1).
    assert (Hr1 : opt_reconnect (options (handle host i c).1) = true)
      by congruence.
    destruct (IH _ Htr Hst1 Hs1 Hr1) as (Hst2 & Hc2 & Hn2).
    rewrite run_cons_fst, run_cons_snd, state_changes_app, Hc1, Hc2.
    repeat split; try done. by apply Forall_app.
Qed.

(** Once [shouldReconnect] is false and no timer is pending, every input
    but an explicit [connect] keeps it so and starts no reconnection. *)
Lemma disconnected_step (i : Input) (c : WebSocketClient) :
  i ≠ Connect → shouldReconnect c = false → reconnectTimer c = None →
  shouldReconnect (handle host i c).1 = false
  ∧ reconnectTimer (handle host i c).1 = None
  ∧ Forall (λ e, reconnect_activity e = false) (handle host i c).2.
Proof.
  intros Hi Hs Ht. split_client c. subst.
  destruct i; try done; unfold_actions; simpl;
    repeat (case_match; simplify_eq/=); repeat split; try done;
    repeat constructor.
Qed.

Lemma disconnected_run (tr : list Input) :
  ∀ c : WebSocketClient,
    Forall (λ i, i ≠ Connect) tr →
    shouldReconnect c = false → reconnectTimer c = None →
    shouldReconnect (run host tr c).1 = false
    ∧ reconnectTimer (run host tr c).1 = None
    ∧ Forall (λ e, reconnect_activity e = false) (run host tr c).2.
Proof.
  induction tr as [|i tr IH]; intros c Htr Hs Ht.
  - simpl. repeat split; try done.
  - apply Forall_cons in Htr as [Hi Htr].
    destruct (disconnected_step i c Hi Hs Ht) as (Hs1 & Ht1 & Hn1).
    destruct (IH _ Htr Hs1 Ht1) as (Hs2 & Ht2 & Hn2).
    rewrite run_cons_fst, run_cons_snd.
    repeat split; try done. by apply Forall_app.
Qed.

Lemma disconnect_disables (c : WebSocketClient) :
  shouldReconnect (disconnect host c).1 = false
  ∧ reconnectTimer (disconnect host c).1 = None
  ∧ ws (disconnect host c).1 = None
  ∧ state (disconnect host c).1 = disconnected
  ∧ (is_Some (reconnectTimer c) → ClearTimeout ∈ (disconnect host c).2)
  ∧ Forall (λ e, reconnect_activity e = false) (disconnect host c).2.
Proof.
  split_client c. unfold_actions. simpl.
  destruct timer as [d|], sock as [w|], (has_dom host), vis, onl, st;
    simpl; repeat split; try done;
    try (intros [? ?]; done);
    try (intros _; set_solver);
    repeat constructor.
Qed.

(** ** The model on the usual scenarios *)

Example construct_in_browser :
  new_client sample_host sample_options
  = ({| ws := None;
        options := {| opt_url := "ws://localhost:3100";
                      opt_authToken := "secret";
                      opt_reconnect := true;
                      opt_reconnectDelay := 1000;
                      opt_maxReconnectDelay := 30000 |};
        state := disconnected; reconnectAttempt := 0;
        reconnectTimer := None; shouldReconnect := true;
        visibilityHandler := true; onlineHandler := true |},
     [AddEventListeners]).
Proof. reflexivity. Qed.

Example connect_then_open :
  (run sample_host [Connect; Connect; SocketOpened; SocketMessage "true"]
     sample_client).2
  = [StateChange connecting None;
     NewWebSocket {| ws_url := "ws://localhost:3100"; ws_token := "secret" |};
     StateChange connected None;
     OnMessage (JBool true)].
Proof. reflexivity. Qed.

Example failed_attempts_back_off :
  (run sample_host [Connect; SocketErrored; SocketClosed;
                    TimerFired; SocketErrored; SocketClosed]
     sample_client).2
  = [StateChange connecting None;
     NewWebSocket {| ws_url := "ws://localhost:3100"; ws_token := "secret" |};
     ConsoleError LogSocketError;
     StateChange error (Some "Connection error"%string);
     ConsoleLog (LogReconnecting 1000 1);
     SetTimeout 1000;
     StateChange connecting None;
     NewWebSocket {| ws_url := "ws://localhost:3100"; ws_token := "secret" |};
     ConsoleError LogSocketError;
     StateChange error (Some "Connection error"%string);
     ConsoleLog (LogReconnecting 2000 2);
     SetTimeout 2000].
Proof. reflexivity. Qed.

Example backoff_is_capped :
  map (backoff_delay (options sample_client)) (seq 0 7)
  = Finite <$> [1000; 2000; 4000; 8000; 16000; 30000; 30000]%Z.
Proof. reflexivity. Qed.

Example backoff_of_zero_base :
  let o := {| opt_url := "ws://localhost:3100"; opt_authToken := "secret";
              opt_reconnect := true; opt_reconnectDelay := 0;
              opt_maxReconnectDelay := 30000 |} in
  backoff_delay o 1023 = Finite 0 ∧ backoff_delay o 1024 = NotANumber.
Proof. split; vm_compute; reflexivity. Qed.

Example backoff_of_negative_base :
  let o := {| opt_url := "ws://localhost:3100"; opt_authToken := "secret";
              opt_reconnect := true; opt_reconnectDelay := -5;
              opt_maxReconnectDelay := 30000 |} in
  backoff_delay o 3 = Finite (-40) ∧ backoff_delay o 1024 = NegInfinity.
Proof. split; vm_compute; reflexivity. Qed.

Example throwing_consumer_is_logged :
  let h := {| JSON_parse := JSON_parse sample_host;
              onMessage_throws := fun _ => true;
              socket_error := socket_error sample_host;
              has_dom := true |} in
  handle h (SocketMessage "null") sample_client
  = (sample_client, [OnMessage JNull; ConsoleError LogParseFailure]).
Proof. reflexivity. Qed.

Example tab_visible_while_waiting :
  (handle sample_host (VisibilityChange true)
     (run sample_host [Connect; SocketErrored; SocketClosed]
        sample_client).1).2
  = [ConsoleLog LogTabVisible; ConsoleLog LogReconnectTabVisible;
     ClearTimeout; StateChange connecting None;
     NewWebSocket {| ws_url := "ws://localhost:3100"; ws_token := "secret" |}].
Proof. reflexivity. Qed.

Example send_when_connected :
  send JNull (run sample_host [Connect; SocketOpened] sample_client).1
  = inr ((run sample_host [Connect; SocketOpened] sample_client).1,
         [SocketSend JNull]).
Proof. reflexivity. Qed.

(** X20.  What the two DOM handlers do while they are registered and
    their guard passes (whatever the [reconnect] option says): log, cancel
    the pending timer, reset the attempt counter and call [connect], which
    announces [connecting] first; no timer is set and at most one socket
    is constructed. *)
Lemma environment_trigger_when_listening (c : WebSocketClient) (i : Input) :
  i = VisibilityChange true ∨ i = NetworkOnline →
  visibilityHandler c = true → onlineHandler c = true →
  shouldReconnect c = true → busy (state c) = false →
  reconnectAttempt (handle host i c).1 = 0
  ∧ reconnectTimer (handle host i c).1 = None
  ∧ (is_Some (reconnectTimer c) → ClearTimeout ∈ (handle host i c).2)
  ∧ hd_error (state_changes (handle host i c).2) = Some connecting
  ∧ scheduled_delays (handle host i c).2 = []
  ∧ length (filter (λ e, opens_socket e = true) (handle host i c).2) ≤ 1.
Proof.
  intros Hi Hv Ho Hs Hb. split_client c. subst.
  destruct Hi as [-> | ->]; unfold_actions; simpl;
    destruct timer as [d|], st; try discriminate Hb; simpl;
    repeat (case_match; simplify_eq/=);
    repeat split; try done; try (intros _; set_solver);
    try (intros [? ?]; done); try (cbv; lia).
Qed.

(** ** The claims *)

(** For a positive base delay and a finite maximal delay the delay
    computed is an integer, the one of the formula. *)
Lemma backoff_delay_finite (o : ResolvedOptions) (k : nat) :
  (0 < opt_reconnectDelay o)%Z → (opt_maxReconnectDelay o < 2 ^ 1024)%Z →
  backoff_delay o k
  = Finite (Z.min (opt_reconnectDelay o * 2 ^ Z.of_nat k)
                  (opt_maxReconnectDelay o)).
Proof.
  intros Hbase Hmax. unfold backoff_delay, js_pow2, js_mul.
  set (base := opt_reconnectDelay o) in *.
  set (max := opt_maxReconnectDelay o) in *.
  set (bound := (2 ^ 1024)%Z) in *.
  assert (Hpow : (0 < 2 ^ Z.of_nat k)%Z) by (apply Z.pow_pos_nonneg; lia).
  assert (Hprod : (0 < base * 2 ^ Z.of_nat k)%Z) by nia.
  destruct (k <? 1024)%nat eqn:Hk.
  - destruct (Z.abs (base * 2 ^ Z.of_nat k) <? bound)%Z eqn:Hfin; [done|].
    apply Z.ltb_ge in Hfin. rewrite Z.abs_eq in Hfin by lia.
    destruct (0 <? base * 2 ^ Z.of_nat k)%Z eqn:Hpos;
      [|apply Z.ltb_ge in Hpos; lia].
    simpl. f_equal. lia.
  - apply Nat.ltb_ge in Hk.
    destruct (base =? 0)%Z eqn:Hz; [apply Z.eqb_eq in Hz; lia|].
    destruct (0 <? base)%Z eqn:Hpos; [|apply Z.ltb_ge in Hpos; lia].
    simpl. f_equal.
    assert (Hle : (bound ≤ 2 ^ Z.of_nat k)%Z).
    { subst bound. apply Z.pow_le_mono_r; lia. }
    nia.
Qed.

(** C1 (as amended).  Start with the attempt counter at zero and no
    reconnect timer pending (a newly constructed client, for one), with
    reconnection enabled, a positive base delay and a finite maximal
    delay.  Let [n >= 1] unexpected closes follow with, in between, no
    successful open, no environment trigger and no disconnect, each close
    after the first arriving after the timer of the previous one has
    fired.  Then the close number [k] sets a timer of
    [min (base * 2^(k-1)) max]: the delays set are those for
    [k = 1 .. n], the one set upon the [n]-th close is
    [min (base * 2^(n-1)) max], and the counter is [n] afterwards.  A
    successful open sets the counter back to zero; it leaves a pending
    timer pending, and a close that finds a timer pending sets none. *)
Theorem reconnect_backoff_schedule :
  ∀ (c : WebSocketClient) (first : list Input) (rest : list (list Input)),
    reconnectAttempt c = 0 → reconnectTimer c = None →
    shouldReconnect c = true → opt_reconnect (options c) = true →
    (0 < opt_reconnectDelay (options c))%Z →
    (opt_maxReconnectDelay (options c) < 2 ^ 1024)%Z →
    Forall (λ i, quiet i = true) first →
    Forall (λ seg, Forall (λ i, quiet i = true) seg ∧ TimerFired ∈ seg)
           rest →
    let n := S (length rest) in
    let base := opt_reconnectDelay (options c) in
    let max := opt_maxReconnectDelay (options c) in
    let r := run host (closes_after first rest) c in
    scheduled_delays r.2
    = map (λ k, Finite (Z.min (base * 2 ^ Z.of_nat k) max)) (seq 0 n)
    ∧ last (scheduled_delays r.2)
      = Some (Finite (Z.min (base * 2 ^ Z.of_nat (n - 1)) max))
    ∧ reconnectAttempt r.1 = n
    ∧ (∀ c', reconnectAttempt (handle host SocketOpened c').1 = 0
             ∧ reconnectTimer (handle host SocketOpened c').1
               = reconnectTimer c')
    ∧ (∀ c', is_Some (reconnectTimer c') →
             scheduled_delays (handle host SocketClosed c').2 = []).
Proof.
  intros c first rest Ha Ht Hs Hr Hbase Hmax Hfirst Hrest n base max r.
  destruct (quiet_run first c Hfirst Hs) as (Ho1 & Ha1 & Hs1 & Hd1 & Ht1 & _).
  specialize (Ht1 Ht).
  set (c1 := (run host first c).1) in *.
  assert (Hr1 : opt_reconnect (options c1) = true) by congruence.
  destruct (close_schedules c1 Ht1 Hs1 Hr1) as (Ho2 & Ha2 & Hs2 & Hd2).
  set (c2 := (handle host SocketClosed c1).1) in *.
  assert (Hr2 : opt_reconnect (options c2) = true) by congruence.
  destruct (later_closes rest c2 Hs2 Hr2 Hrest) as (Ho3 & Hs3 & Ha3 & Hd3).
  assert (Hdelays : scheduled_delays r.2
                    = map (λ k, Finite (Z.min (base * 2 ^ Z.of_nat k) max))
                          (seq 0 n)).
  { subst r. unfold closes_after.
    rewrite !run_app_snd, !run_one, !scheduled_delays_app.
    fold c1. fold c2. rewrite Hd1, Hd2, Hd3, Ho2, Ho1, Ha2, Ha1, Ha.
    change ([backoff_delay (options c) 0]
            ++ map (backoff_delay (options c)) (seq 1 (length rest)))
      with (map (backoff_delay (options c)) (seq 0 n)).
    apply map_ext. intros k. by apply backoff_delay_finite. }
  split; [exact Hdelays|]. split; [|split; [|split]].
  - rewrite Hdelays. subst n. rewrite seq_S, map_app. cbn [map].
    rewrite last_snoc. simpl. by rewrite Nat.sub_0_r.
  - subst r. unfold closes_after. rewrite !run_app_fst, run_one.
    fold c1. fold c2. rewrite Ha3, Ha2, Ha1, Ha. reflexivity.
  - intros c'. split_client c'. unfold_actions. simpl.
    by repeat (case_match; simplify_eq/=).
  - intros c' [d Hd]. split_client c'. subst. unfold_actions. simpl.
    by repeat (case_match; simplify_eq/=).
Qed.

(** C2.  If the socket closes while the state is [connected] (no error
    event came first) and reconnection is enabled, the consumer is told of
    no state change, [getState] still answers [connected] and a reconnect
    timer is pending; when it fires, [connect] returns at once: nothing is
    constructed and nothing announced.  From there, whatever arrives other
    than an error event or an explicit [disconnect], the state stays
    [connected] and no socket is ever constructed. *)
Theorem close_while_connected_is_stuck :
  ∀ (c : WebSocketClient) (tr : list Input),
    state c = connected → shouldReconnect c = true →
    opt_reconnect (options c) = true →
    Forall (λ i, i ≠ SocketErrored ∧ i ≠ Disconnect) tr →
    let c1 := (handle host SocketClosed c).1 in
    state_changes (handle host SocketClosed c).2 = []
    ∧ getState c1 = connected
    ∧ is_Some (reconnectTimer c1)
    ∧ handle host TimerFired c1 = (set_reconnectTimer None c1, [])
    ∧ getState (run host tr c1).1 = connected
    ∧ state_changes (run host tr c1).2 = []
    ∧ Forall (λ e, opens_socket e = false) (run host tr c1).2.
Proof.
  intros c tr Hst Hs Hr Htr c1.
  destruct (connected_step SocketClosed c) as (Hst1 & Hs1 & Ho1 & Hc1 & _);
    try done.
  assert (Hr1 : opt_reconnect (options c1) = true)
    by (subst c1; congruence).
  destruct (connected_run tr c1 Htr Hst1 Hs1 Hr1) as (Hst2 & Hc2 & Hn2).
  assert (Htimer : is_Some (reconnectTimer c1)).
  { subst c1. clear -Hs Hr. split_client c. subst. unfold_actions. simpl.
    rewrite Hr. destruct timer; simpl; eauto. }
  repeat split; try done.
  destruct Htimer as [d Hd]. fold c1 in Hst1.
  unfold handle. rewrite Hd. unfold_actions. simpl. by rewrite Hst1.
Qed.

(** C6.  [disconnect] leaves no timer pending (a pending one is cleared)
    and starts nothing itself; and in every run after it that contains no
    explicit [connect] -- close events, timer firings, visibility and
    online signals, anything else -- no socket is constructed, the state
    never becomes [connecting] and no reconnect timer is set. *)
Theorem no_reconnect_after_disconnect :
  ∀ (c : WebSocketClient) (tr : list Input),
    Forall (λ i, i ≠ Connect) tr →
    let c1 := (disconnect host c).1 in
    reconnectTimer c1 = None
    ∧ (is_Some (reconnectTimer c) → ClearTimeout ∈ (disconnect host c).2)
    ∧ Forall (λ e, reconnect_activity e = false) (disconnect host c).2
    ∧ Forall (λ e, reconnect_activity e = false) (run host tr c1).2
    ∧ reconnectTimer (run host tr c1).1 = None.
Proof.
  intros c tr Htr c1.
  destruct (disconnect_disables c) as (Hs & Ht & _ & _ & Hclear & Hquiet).
  destruct (disconnected_run tr c1 Htr Hs Ht) as (_ & Ht' & Hquiet').
  by repeat split.
Qed.

(** C8.  A frame whose payload [JSON.parse] rejects is dropped: the
    handler returns normally, having only logged the failure; the client
    is exactly as before (in particular its connection state), and
    neither [onMessage] nor [onStateChange] is called. *)
Theorem malformed_frame_dropped :
  ∀ (c : WebSocketClient) (data : string),
    JSON_parse host data = None →
    handle host (SocketMessage data) c = (c, [ConsoleError LogParseFailure])
    ∧ getState (handle host (SocketMessage data) c).1 = getState c
    ∧ Forall (λ e, calls_consumer e = false)
             (handle host (SocketMessage data) c).2.
Proof.
  intros c data Hbad. unfold handle, onmessage. rewrite Hbad.
  unfold emit. simpl. repeat split. by repeat constructor.
Qed.

(** C10.  [send] in any state other than [connected] throws the
    not-connected error; nothing is handed to the socket. *)
Theorem send_requires_connected :
  ∀ (c : WebSocketClient) (data : json),
    state c ≠ connected →
    send data c = inl "WebSocket is not connected"%string.
Proof.
  intros c data Hst. unfold send. by destruct (state c), (ws c).
Qed.

End Runs.

(** C1, what the claim says fails: with the default options (base 1000,
    max 30000) the first unexpected close sets a timer of 1000, not of
    [min (1000 * 2^1) 30000 = 2000]. *)
Lemma first_close_delay_is_base :
  let r := run sample_host [Connect; SocketErrored; SocketClosed]
               sample_client in
  opt_reconnectDelay (options sample_client) = 1000%Z
  ∧ opt_maxReconnectDelay (options sample_client) = 30000%Z
  ∧ scheduled_delays r.2 = [Finite 1000]
  ∧ scheduled_delays r.2 ≠ [Finite (Z.min (1000 * 2 ^ 1) 30000)].
Proof.
  repeat split; [vm_compute; reflexivity ..|].
  vm_compute. discriminate.
Qed.

Lemma reconnect_backoff_schedule_witness :
  let tr := closes_after [Connect; SocketErrored]
              [[TimerFired; SocketErrored]; [TimerFired; SocketErrored]] in
  scheduled_delays (run sample_host tr sample_client).2
  = [Finite 1000; Finite 2000; Finite 4000]
  ∧ last (scheduled_delays (run sample_host tr sample_client).2)
    = Some (Finite 4000)
  ∧ reconnectAttempt (run sample_host tr sample_client).1 = 3.
Proof.
  intros tr.
  destruct (reconnect_backoff_schedule sample_host sample_client
              [Connect; SocketErrored]
              [[TimerFired; SocketErrored]; [TimerFired; SocketErrored]]
              eq_refl eq_refl eq_refl eq_refl)
    as (Hall & Hlast & Hcount & _).
  - reflexivity.
  - reflexivity.
  - repeat constructor.
  - repeat constructor; set_solver.
  - split; [exact Hall|]. split; [exact Hlast|exact Hcount].
Defined.

Lemma close_while_connected_is_stuck_witness :
  let c := (run sample_host [Connect; SocketOpened] sample_client).1 in
  let c1 := (handle sample_host SocketClosed c).1 in
  let tr := [TimerFired; VisibilityChange true; NetworkOnline; Connect;
             SocketClosed; TimerFired] in
  state c = connected
  ∧ state_changes (handle sample_host SocketClosed c).2 = []
  ∧ getState c1 = connected
  ∧ handle sample_host TimerFired c1 = (set_reconnectTimer None c1, [])
  ∧ getState (run sample_host tr c1).1 = connected
  ∧ Forall (λ e, opens_socket e = false) (run sample_host tr c1).2.
Proof.
  intros c c1 tr.
  destruct (close_while_connected_is_stuck sample_host c tr
              eq_refl eq_refl eq_refl)
    as (Hquiet & Hstate & _ & Htimer & Hstuck & _ & Hnone).
  - repeat constructor; discriminate.
  - split; [reflexivity|]. split; [exact Hquiet|]. split; [exact Hstate|].
    split; [exact Htimer|]. split; [exact Hstuck|exact Hnone].
Defined.

Lemma no_reconnect_after_disconnect_witness :
  let c := (run sample_host [Connect; SocketErrored; SocketClosed]
              sample_client).1 in
  let c1 := (disconnect sample_host c).1 in
  let tr := [SocketClosed; TimerFired; VisibilityChange true; NetworkOnline;
             SocketErrored; SocketOpened] in
  reconnectTimer c = Some (Finite 1000)
  ∧ reconnectTimer c1 = None
  ∧ ClearTimeout ∈ (disconnect sample_host c).2
  ∧ Forall (λ e, reconnect_activity e = false) (run sample_host tr c1).2.
Proof.
  intros c c1 tr.
  destruct (no_reconnect_after_disconnect sample_host c tr)
    as (Hnone & Hclear & _ & Hquiet & _).
  - repeat constructor; discriminate.
  - split; [reflexivity|]. split; [exact Hnone|].
    split; [apply Hclear; by exists (Finite 1000)|exact Hquiet].
Defined.

(** C7, at an input where the code departs from it.  The client is
    constructed in a browser, disconnected, connected again, and the new
    socket fails and closes: reconnection is enabled, the state is
    [error], a timer of 1000 is pending and the attempt counter is 1.
    [disconnect] has removed the two listeners and [connect] has not put
    them back, so the visibility and online signals do nothing: the timer
    is not cleared, the counter is not reset and no connection is
    attempted. *)
Theorem environment_trigger_lost_after_disconnect :
  let c := (run sample_host [Disconnect; Connect; SocketErrored; SocketClosed]
              sample_client).1 in
  visibilityHandler sample_client = true
  ∧ onlineHandler sample_client = true
  ∧ shouldReconnect c = true
  ∧ opt_reconnect (options c) = true
  ∧ state c = error
  ∧ reconnectTimer c = Some (Finite 1000)
  ∧ reconnectAttempt c = 1
  ∧ handle sample_host (VisibilityChange true) c = (c, [])
  ∧ handle sample_host NetworkOnline c = (c, []).
Proof. repeat split. Qed.

Lemma malformed_frame_dropped_witness :
  JSON_parse sample_host "{oops" = None
  ∧ handle sample_host (SocketMessage "{oops") sample_client
    = (sample_client, [ConsoleError LogParseFailure]).
Proof.
  split; [reflexivity|].
  exact (proj1 (malformed_frame_dropped sample_host sample_client "{oops"
                  eq_refl)).
Defined.

Lemma send_requires_connected_witness :
  state sample_client = disconnected
  ∧ send (JObject [("type", JString "prompt")]%string) sample_client
    = inl "WebSocket is not connected"%string.
Proof.
  split; [reflexivity|].
  apply send_requires_connected. discriminate.
Defined.

End WsClientFacts.

(* ===================================================================== *)
(** * Further properties of the WebSocket client                           *)
(* ===================================================================== *)

Module WsClientMore.
Import WsClient WsClientFacts.
Local Open Scope action_scope.

Ltac split_elem :=
  repeat match goal with
  | H : _ ∈ [] |- _ => by apply elem_of_nil in H
  | H : _ ∈ _ :: _ |- _ => apply elem_of_cons in H as [H | H]
  end.

Section More.

Variable host : Host.

Lemma no_repeat_app (s : ConnectionState) (l1 l2 : list ConnectionState) :
  no_repeat s (l1 ++ l2)
  = no_repeat s l1 && no_repeat (default s (last l1)) l2.
Proof.
  revert s. induction l1 as [|a l1 IH]; intros s; [done|].
  cbn [app no_repeat]. rewrite IH, andb_assoc, last_cons.
  by destruct (last l1).
Qed.

Lemma default_last_app (s : ConnectionState) (l1 l2 : list ConnectionState) :
  default s (last (l1 ++ l2)) = default (default s (last l1)) (last l2).
Proof. rewrite last_app. by destruct (last l2). Qed.

(** One input: the notifications never repeat the state the consumer
    already knows, and the last one is the state the client is in. *)
Lemma notifications_step (i : Input) (c : WebSocketClient) :
  no_repeat (state c) (state_changes (handle host i c).2) = true
  ∧ default (state c) (last (state_changes (handle host i c).2))
    = state (handle host i c).1.
Proof.
  split_client c.
  destruct i, st; unfold_actions; simpl;
    repeat (case_match; simplify_eq/=); by split.
Qed.

(** X1.  Over any run, the states announced through [onStateChange]
    never repeat: each differs from the one announced before it, and the
    first from the state the run started in; and [getState] answers the
    last state announced (the starting state when none was). *)
Theorem notifications_track_state :
  ∀ (tr : list Input) (c : WebSocketClient),
    no_repeat (state c) (state_changes (run host tr c).2) = true
    ∧ getState (run host tr c).1
      = default (state c) (last (state_changes (run host tr c).2)).
Proof.
  induction tr as [|i tr IH]; intros c; [done|].
  destruct (notifications_step i c) as [Hn Hl].
  destruct (IH (handle host i c).1) as [Hn' Hl'].
  rewrite run_cons_fst, run_cons_snd, state_changes_app, no_repeat_app,
    default_last_app, Hl, Hn.
  by split.
Qed.

(** X2.  A reconnect timer is set by nothing but a close event, and only
    when no timer is pending and reconnection is enabled; the timer set is
    then the only one of that step, its delay is the backoff delay of the
    current attempt, and it is the pending timer afterwards. *)
Theorem timer_set_only_by_close :
  ∀ (i : Input) (c : WebSocketClient) (d : JsNumber),
    d ∈ scheduled_delays (handle host i c).2 →
    i = SocketClosed
    ∧ reconnectTimer c = None
    ∧ shouldReconnect c = true
    ∧ opt_reconnect (options c) = true
    ∧ scheduled_delays (handle host i c).2
      = [backoff_delay (options c) (reconnectAttempt c)]
    ∧ reconnectTimer (handle host i c).1 = Some d.
Proof.
  intros i c d Hd. split_client c.
  destruct i; unfold_actions; simpl in *;
    repeat (case_match; simplify_eq/=); split_elem; simplify_eq/=;
    try done;
    repeat match goal with
    | H : _ && _ = true |- _ => apply andb_true_iff in H as [? ?]
    end; simplify_eq/=; by repeat split.
Qed.

(** X3.  A socket is constructed only while the state is neither
    [connected] nor [connecting], by [connect] itself or through the
    timer, the visibility handler or the online handler; there is at most
    one per input, and afterwards the state is [connecting], [this.ws] is
    that socket and reconnection is enabled. *)
Theorem socket_opened_only_when_idle :
  ∀ (i : Input) (c : WebSocketClient) (w : WebSocket),
    w ∈ sockets_opened (handle host i c).2 →
    busy (state c) = false
    ∧ (i = Connect ∨ i = TimerFired ∨ i = VisibilityChange true
       ∨ i = NetworkOnline)
    ∧ sockets_opened (handle host i c).2 = [w]
    ∧ state (handle host i c).1 = connecting
    ∧ ws (handle host i c).1 = Some w
    ∧ shouldReconnect (handle host i c).1 = true.
Proof.
  intros i c w Hw. split_client c.
  destruct i, st; unfold_actions; simpl in *;
    repeat (case_match; simplify_eq/=); split_elem; simplify_eq/=;
    try done; repeat split; auto.
Qed.

(** X4.  What each announced state is due to: [connecting] is announced
    only from a state that is neither [connected] nor [connecting];
    [connected] only by an open event; [error] only by an error event or
    by a socket constructor that threw, with the thrown message; and
    [disconnected] only by [disconnect] or by a close event that finds
    reconnection disabled. *)
Theorem announced_state_cause :
  ∀ (i : Input) (c : WebSocketClient) (s : ConnectionState)
    (err : option string),
    StateChange s err ∈ (handle host i c).2 →
    match s with
    | connecting => busy (state c) = false ∧ err = None
    | connected => i = SocketOpened ∧ err = None
    | error =>
        (i = SocketErrored ∧ err = Some "Connection error"%string)
        ∨ (busy (state c) = false
           ∧ err = socket_error host (opt_url (options c))
                     (opt_authToken (options c))
           ∧ is_Some err)
    | disconnected =>
        err = None
        ∧ (i = Disconnect
           ∨ (i = SocketClosed
              ∧ shouldReconnect c && opt_reconnect (options c) = false))
    end.
Proof.
  intros i c s err Hin. split_client c.
  destruct i, st; unfold_actions; simpl in *;
    repeat (case_match; simplify_eq/=); split_elem; simplify_eq/=;
    try done; try (by repeat split; auto);
    try (by left); try (right; repeat split; eauto; done).
Qed.

Lemma sockets_opened_app (a b : list Effect) :
  sockets_opened (a ++ b) = sockets_opened a ++ sockets_opened b.
Proof. unfold sockets_opened. apply omap_app. Qed.

(** One input changes neither the options nor, once they are unset, the
    two handlers; with automatic reconnection off it sets no timer; and
    every socket it constructs is for the configured URL and token. *)
Lemma configuration_step (i : Input) (c : WebSocketClient) :
  options (handle host i c).1 = options c
  ∧ (visibilityHandler c = false →
     visibilityHandler (handle host i c).1 = false)
  ∧ (onlineHandler c = false → onlineHandler (handle host i c).1 = false)
  ∧ Forall (λ e, e ≠ AddEventListeners) (handle host i c).2
  ∧ (opt_reconnect (options c) = false →
     scheduled_delays (handle host i c).2 = [])
  ∧ Forall (λ w, ws_url w = opt_url (options c)
                 ∧ ws_token w = opt_authToken (options c))
           (sockets_opened (handle host i c).2).
Proof.
  split_client c.
  destruct i; unfold_actions; simpl;
    repeat (case_match; simplify_eq/=);
    repeat split; try done; try (by rewrite andb_false_r in *);
    repeat constructor; try done;
    try (intros Hoff; rewrite Hoff, andb_false_r in *; done).
Qed.

Lemma configuration_run (tr : list Input) :
  ∀ c : WebSocketClient,
    options (run host tr c).1 = options c
    ∧ (visibilityHandler c = false →
       visibilityHandler (run host tr c).1 = false)
    ∧ (onlineHandler c = false → onlineHandler (run host tr c).1 = false)
    ∧ Forall (λ e, e ≠ AddEventListeners) (run host tr c).2
    ∧ (opt_reconnect (options c) = false →
       scheduled_delays (run host tr c).2 = [])
    ∧ Forall (λ w, ws_url w = opt_url (options c)
                   ∧ ws_token w = opt_authToken (options c))
             (sockets_opened (run host tr c).2).
Proof.
  induction tr as [|i tr IH]; intros c.
  - simpl. repeat split; try done; constructor.
  - destruct (configuration_step i c) as (Ho & Hv & Hn & Ha & Hd & Hw).
    destruct (IH (handle host i c).1) as (Ho' & Hv' & Hn' & Ha' & Hd' & Hw').
    rewrite run_cons_fst, run_cons_snd, scheduled_delays_app,
      sockets_opened_app.
    rewrite Ho in Ho', Hd', Hw'.
    split; [exact Ho'|]. split; [auto|]. split; [auto|].
    split; [by apply Forall_app|]. split.
    + intros Hoff. by rewrite Hd, Hd'.
    + by apply Forall_app.
Qed.

(** X5.  With [reconnect: false] in the options, no reconnect timer is
    ever set, whatever arrives. *)
Theorem no_timer_when_reconnect_off :
  ∀ (tr : list Input) (c : WebSocketClient),
    opt_reconnect (options c) = false →
    scheduled_delays (run host tr c).2 = []
    ∧ opt_reconnect (options (run host tr c).1) = false.
Proof.
  intros tr c Hoff.
  destruct (configuration_run tr c) as (Ho & _ & _ & _ & Hd & _).
  split; [by apply Hd | congruence].
Qed.

(** X6.  The two DOM listeners are registered by the constructor alone:
    no method and no callback registers them, so once [disconnect] has
    removed them (or where there is no DOM) the visibility and online
    signals have no effect for the rest of the client's life, also after a
    later [connect]. *)
Theorem listeners_never_registered_again :
  ∀ (tr : list Input) (c : WebSocketClient),
    visibilityHandler c = false → onlineHandler c = false →
    let c' := (run host tr c).1 in
    Forall (λ e, e ≠ AddEventListeners) (run host tr c).2
    ∧ (∀ visible, handle host (VisibilityChange visible) c' = (c', []))
    ∧ handle host NetworkOnline c' = (c', []).
Proof.
  intros tr c Hv Hn c'.
  destruct (configuration_run tr c) as (_ & Hv' & Hn' & Ha & _).
  specialize (Hv' Hv). specialize (Hn' Hn). fold c' in Hv', Hn'.
  split; [done|]. unfold handle. rewrite Hv', Hn'. by split.
Qed.

(** X7.  Every socket the client ever constructs is for the URL and the
    token of its options, which no input changes. *)
Theorem sockets_use_configured_endpoint :
  ∀ (tr : list Input) (c : WebSocketClient) (w : WebSocket),
    w ∈ sockets_opened (run host tr c).2 →
    ws_url w = opt_url (options c)
    ∧ ws_token w = opt_authToken (options c)
    ∧ options (run host tr c).1 = options c.
Proof.
  intros tr c w Hw.
  destruct (configuration_run tr c) as (Ho & _ & _ & _ & _ & Hall).
  rewrite Forall_forall in Hall. destruct (Hall w Hw) as [Hu Ht].
  by repeat split.
Qed.

(** X8.  A second [connect] right after one whose socket was constructed
    does nothing: no second socket, no notification, no change. *)
Theorem connect_twice_is_connect_once :
  ∀ c : WebSocketClient,
    socket_error host (opt_url (options c)) (opt_authToken (options c))
    = None →
    connect host (connect host c).1 = ((connect host c).1, []).
Proof.
  intros c Hok. split_client c.
  destruct st; unfold_actions; simpl in *; rewrite ?Hok; simpl; done.
Qed.

(** X9.  [disconnect] is final and idempotent: afterwards the state is
    [disconnected], no socket is held, a second [disconnect] changes and
    emits nothing, and [send] throws. *)
Theorem disconnect_twice_is_disconnect_once :
  ∀ (c : WebSocketClient) (data : json),
    let c1 := (disconnect host c).1 in
    disconnect host c1 = (c1, [])
    ∧ getState c1 = disconnected
    ∧ ws c1 = None
    ∧ send data c1 = inl "WebSocket is not connected"%string.
Proof.
  intros c data. split_client c.
  destruct timer, sock, st, (has_dom host) eqn:Hdom, vis, onl;
    unfold_actions; simpl; rewrite ?Hdom; simpl; by repeat split.
Qed.

(** X11.  A failed attempt is retried.  With reconnection enabled, no
    timer pending and a socket constructor that succeeds, an error event
    followed by the close of the socket sets one timer, with the backoff
    delay of the current attempt, and when that timer fires a new socket
    is constructed: the state is [connecting] again and the attempt
    counter is one higher. *)
Theorem failed_attempt_is_retried :
  ∀ c : WebSocketClient,
    reconnectTimer c = None → shouldReconnect c = true →
    opt_reconnect (options c) = true →
    socket_error host (opt_url (options c)) (opt_authToken (options c))
    = None →
    let r := run host [SocketErrored; SocketClosed; TimerFired] c in
    scheduled_delays r.2 = [backoff_delay (options c) (reconnectAttempt c)]
    ∧ sockets_opened r.2
      = [ {| ws_url := opt_url (options c);
             ws_token := opt_authToken (options c) |} ]
    ∧ state r.1 = connecting
    ∧ reconnectAttempt r.1 = S (reconnectAttempt c)
    ∧ reconnectTimer r.1 = None.
Proof.
  intros c Ht Hs Hr Hok r. subst r. split_client c. subst.
  cbn [run].
  destruct st; unfold_actions; simpl in *; rewrite ?Hr; simpl;
    rewrite ?Hok; simpl; by repeat split.
Qed.

(** How one input changes the attempt counter: not at all, or by one
    when a close sets a timer, or back to zero on an open event or an
    environment trigger. *)
Lemma attempt_step (i : Input) (c : WebSocketClient) :
  (reconnectAttempt (handle host i c).1 = reconnectAttempt c
   ∧ scheduled_delays (handle host i c).2 = [])
  ∨ (reconnectAttempt (handle host i c).1 = S (reconnectAttempt c)
     ∧ length (scheduled_delays (handle host i c).2) = 1)
  ∨ (reconnectAttempt (handle host i c).1 = 0
     ∧ scheduled_delays (handle host i c).2 = []
     ∧ (i = SocketOpened ∨ i = VisibilityChange true ∨ i = NetworkOnline)).
Proof.
  split_client c.
  destruct i; unfold_actions; simpl;
    repeat (case_match; simplify_eq/=); auto 10.
Qed.

(** X21.  The attempt counter grows only with the timers set: after any
    run it is at most its value before plus the number of timers the run
    set, so the exponent of the backoff never runs ahead of the retries
    actually scheduled. *)
Theorem attempts_bounded_by_timers :
  ∀ (tr : list Input) (c : WebSocketClient),
    reconnectAttempt (run host tr c).1
    ≤ reconnectAttempt c + length (scheduled_delays (run host tr c).2).
Proof.
  induction tr as [|i tr IH]; intros c; [simpl; lia|].
  specialize (IH (handle host i c).1).
  rewrite run_cons_fst, run_cons_snd, scheduled_delays_app, length_app.
  destruct (attempt_step i c) as [[Ha Hd]|[[Ha Hd]|(Ha & Hd & _)]];
    rewrite Ha in IH; rewrite Hd in *; simpl in *; lia.
Qed.

End More.

Lemma environment_trigger_when_listening_witness :
  let c := (run sample_host [Connect; SocketErrored; SocketClosed]
              sample_client).1 in
  reconnectTimer c = Some (Finite 1000)
  ∧ reconnectAttempt (handle sample_host NetworkOnline c).1 = 0
  ∧ reconnectTimer (handle sample_host NetworkOnline c).1 = None
  ∧ ClearTimeout ∈ (handle sample_host NetworkOnline c).2.
Proof.
  intros c.
  destruct (environment_trigger_when_listening sample_host c NetworkOnline
              (or_intror eq_refl) eq_refl eq_refl eq_refl eq_refl)
    as (Ha & Ht & Hc & _).
  split; [reflexivity|]. split; [exact Ha|]. split; [exact Ht|].
  apply Hc. by exists (Finite 1000).
Defined.

Lemma timer_set_only_by_close_witness :
  let c := (run sample_host [Connect; SocketErrored] sample_client).1 in
  scheduled_delays (handle sample_host SocketClosed c).2 = [Finite 1000]
  ∧ reconnectTimer (handle sample_host SocketClosed c).1 = Some (Finite 1000).
Proof.
  intros c.
  destruct (timer_set_only_by_close sample_host SocketClosed c (Finite 1000))
    as (_ & _ & _ & _ & Hd & Ht).
  - vm_compute. left.
  - split; [exact Hd|exact Ht].
Defined.

Lemma socket_opened_only_when_idle_witness :
  let w := {| ws_url := "ws://localhost:3100"; ws_token := "secret" |} in
  busy (state sample_client) = false
  ∧ sockets_opened (handle sample_host Connect sample_client).2 = [w]
  ∧ state (handle sample_host Connect sample_client).1 = connecting.
Proof.
  intros w.
  destruct (socket_opened_only_when_idle sample_host Connect sample_client w)
    as (Hb & _ & Hw & Hs & _).
  - vm_compute. left.
  - split; [exact Hb|]. split; [exact Hw|exact Hs].
Defined.

Lemma announced_state_cause_witness :
  let c := (run sample_host [Connect] sample_client).1 in
  SocketErrored = SocketErrored
  ∧ Some "Connection error"%string = Some "Connection error"%string
  ∨ busy (state c) = false
    ∧ Some "Connection error"%string
      = socket_error sample_host (opt_url (options c))
          (opt_authToken (options c))
    ∧ is_Some (Some "Connection error"%string).
Proof.
  intros c.
  apply (announced_state_cause sample_host SocketErrored c error
           (Some "Connection error"%string)).
  vm_compute. right. left.
Defined.

Lemma no_timer_when_reconnect_off_witness :
  let o := {| url := "ws://localhost:3100"; authToken := "secret";
              reconnect := Some false; reconnectDelay := None;
              maxReconnectDelay := None |} in
  let c := (new_client sample_host o).1 in
  scheduled_delays
    (run sample_host [Connect; SocketErrored; SocketClosed; TimerFired] c).2
  = [].
Proof.
  intros o c.
  exact (proj1 (no_timer_when_reconnect_off sample_host
                  [Connect; SocketErrored; SocketClosed; TimerFired] c
                  eq_refl)).
Defined.

Lemma listeners_never_registered_again_witness :
  let c := (disconnect sample_host sample_client).1 in
  let c' := (run sample_host [Connect; SocketErrored; SocketClosed] c).1 in
  visibilityHandler sample_client = true
  ∧ shouldReconnect c' = true
  ∧ handle sample_host (VisibilityChange true) c' = (c', [])
  ∧ handle sample_host NetworkOnline c' = (c', []).
Proof.
  intros c c'.
  destruct (listeners_never_registered_again sample_host
              [Connect; SocketErrored; SocketClosed] c eq_refl eq_refl)
    as (_ & Hv & Hn).
  split; [reflexivity|]. split; [reflexivity|].
  split; [exact (Hv true)|exact Hn].
Defined.

Lemma sockets_use_configured_endpoint_witness :
  let w := {| ws_url := "ws://localhost:3100"; ws_token := "secret" |} in
  ws_url w = opt_url (options sample_client)
  ∧ ws_token w = opt_authToken (options sample_client).
Proof.
  intros w.
  destruct (sockets_use_configured_endpoint sample_host
              [Connect; SocketErrored; SocketClosed; TimerFired]
              sample_client w)
    as (Hu & Ht & _).
  - vm_compute. left.
  - split; [exact Hu|exact Ht].
Defined.

Lemma connect_twice_is_connect_once_witness :
  connect sample_host (connect sample_host sample_client).1
  = ((connect sample_host sample_client).1, []).
Proof.
  exact (connect_twice_is_connect_once sample_host sample_client eq_refl).
Defined.

Lemma failed_attempt_is_retried_witness :
  let c := (run sample_host [Connect] sample_client).1 in
  let r := run sample_host [SocketErrored; SocketClosed; TimerFired] c in
  scheduled_delays r.2 = [Finite 1000]
  ∧ state r.1 = connecting
  ∧ reconnectAttempt r.1 = 1.
Proof.
  intros c r.
  destruct (failed_attempt_is_retried sample_host c
              eq_refl eq_refl eq_refl eq_refl)
    as (Hd & _ & Hs & Ha & _).
  split; [exact Hd|]. split; [exact Hs|exact Ha].
Defined.

End WsClientMore.

(* ===================================================================== *)
(** * Further properties of the tool execution tracker                     *)
(* ===================================================================== *)

Module ToolExecutionsMore.
Import ToolExecutions ToolExecutionsFacts.

Lemma order_with_elem (i j : string) (l : list string) :
  j ∈ order_with i l ↔ j = i ∨ j ∈ l.
Proof.
  unfold order_with. case_bool_decide as Hin.
  - split; [by right|]. by intros [-> | ?].
  - rewrite elem_of_app, list_elem_of_singleton. split; intros [?|?]; auto.
Qed.

Lemma order_with_NoDup (i : string) (l : list string) :
  NoDup l → NoDup (order_with i l).
Proof.
  intros Hl. unfold order_with. case_bool_decide; [done|].
  apply NoDup_app. split; [done|]. split; [|apply NoDup_singleton].
  intros j Hj Hj'. apply list_elem_of_singleton in Hj'. by subst.
Qed.

Lemma order_with_prefix (i : string) (l : list string) :
  l `prefix_of` order_with i l.
Proof.
  unfold order_with. case_bool_decide; [done|]. by apply prefix_app_r.
Qed.

Lemma order_with_idem (i : string) (l : list string) :
  order_with i (order_with i l) = order_with i l.
Proof.
  unfold order_with at 1. rewrite bool_decide_eq_true_2; [done|].
  apply order_with_elem. by left.
Qed.

Lemma apply_op_order (o : Op) (st : ToolExecutionsStore) :
  executionOrder (apply_op o st)
  = match o with
    | Register _ _ _ | Start _ _ _ => order_with (op_id o) (executionOrder st)
    | _ => executionOrder st
    end.
Proof.
  destruct o as [p m t|p m t|j r|j r b t]; unfold_ops; try done;
    by destruct (executions st !! j).
Qed.

Lemma apply_op_consistent (o : Op) (st : ToolExecutionsStore) :
  consistent st → consistent (apply_op o st).
Proof.
  intros (Hnd & Hdom & Hkey). split; [|split].
  - rewrite apply_op_order. destruct o; try done; by apply order_with_NoDup.
  - intros i. rewrite apply_op_order.
    destruct (decide (op_id o = i)) as [<-|Hne].
    + destruct o as [p m t|p m t|j r|j r b t]; unfold_ops.
      * rewrite lookup_insert_eq, order_with_elem. split; eauto.
      * rewrite lookup_insert_eq, order_with_elem. split; eauto.
      * rewrite Hdom. destruct (executions st !! j) eqn:E; simpl;
          rewrite ?lookup_insert_eq, ?E; split; eauto.
      * rewrite Hdom. destruct (executions st !! j) eqn:E; simpl;
          rewrite ?lookup_insert_eq, ?E; split; eauto.
    + rewrite apply_op_frame by done. rewrite <- Hdom.
      destruct o; try done; rewrite order_with_elem; simpl in *;
        (split; [intros [?|?]; [by subst|done] | by right]).
  - intros i e' He'.
    destruct (decide (op_id o = i)) as [<-|Hne];
      [|rewrite apply_op_frame in He' by done; eauto].
    destruct o as [p m t|p m t|j r|j r b t]; unfold_ops.
    + rewrite lookup_insert_eq in He'. injection He' as <-.
      destruct (executions st !! p_toolCallId p) eqn:E; simpl; eauto.
    + rewrite lookup_insert_eq in He'. by injection He' as <-.
    + destruct (executions st !! j) eqn:E; simpl in *; [|congruence].
      rewrite lookup_insert_eq in He'. injection He' as <-. simpl. eauto.
    + destruct (executions st !! j) eqn:E; simpl in *; [|congruence].
      rewrite lookup_insert_eq in He'. injection He' as <-. simpl. eauto.
Qed.

Lemma apply_ops_consistent (ops : list Op) :
  ∀ st : ToolExecutionsStore, consistent st → consistent (apply_ops ops st).
Proof.
  induction ops as [|o ops IH]; intros st Hst; [done|].
  rewrite apply_ops_cons. by apply IH, apply_op_consistent.
Qed.

Lemma INITIAL_STATE_consistent : consistent INITIAL_STATE.
Proof.
  split; [constructor|]. split.
  - intros i. simpl. rewrite lookup_empty. split.
    + intros Hin. by apply elem_of_nil in Hin.
    + intros [e He]. done.
  - intros i e He. simpl in He. by rewrite lookup_empty in He.
Qed.

(** The records listed for a message, in a consistent store. *)
Lemma listed_records (st : ToolExecutionsStore) :
  consistent st →
  toolCallId <$> omap (λ i, executions st !! i) (executionOrder st)
  = executionOrder st.
Proof.
  intros (_ & Hdom & Hkey).
  assert (Hall : ∀ i, i ∈ executionOrder st → is_Some (executions st !! i))
    by (intros i; apply Hdom).
  clear Hdom. revert Hall. generalize (executionOrder st) as l.
  induction l as [|i l IH]; intros Hall; [done|].
  destruct (Hall i) as [e He]; [by left|].
  cbn [omap list_omap]. rewrite He. cbn [fmap list_fmap].
  rewrite (Hkey i e He). f_equal. apply IH. intros j Hj. apply Hall. by right.
Qed.

Lemma find_split {A} (f : A → bool) (l : list A) :
  match find f l with
  | Some x => ∃ l1 l2, l = l1 ++ x :: l2 ∧ f x = true
                       ∧ Forall (λ y, f y = false) l1
  | None => Forall (λ y, f y = false) l
  end.
Proof.
  induction l as [|a l IH]; simpl; [constructor|].
  destruct (f a) eqn:Ea.
  - exists [], l. repeat split; [done|constructor].
  - destruct (find f l) as [x|].
    + destruct IH as (l1 & l2 & -> & Hx & Hl1).
      exists (a :: l1), l2. repeat split; [done|by constructor].
    + by constructor.
Qed.

(** X13.  The tracker only ever appends: whatever operations run, the
    order before is a prefix of the order after (a call keeps its place
    of first registration) and no record disappears. *)
Theorem execution_order_append_only :
  ∀ (ops : list Op) (st : ToolExecutionsStore),
    executionOrder st `prefix_of` executionOrder (apply_ops ops st)
    ∧ ∀ i, is_Some (executions st !! i) →
           is_Some (executions (apply_ops ops st) !! i).
Proof.
  induction ops as [|o ops IH]; intros st; [done|].
  rewrite apply_ops_cons. destruct (IH (apply_op o st)) as [Hpre Hkeep].
  split.
  - trans (executionOrder (apply_op o st)); [|done].
    rewrite apply_op_order. destruct o; try done; apply order_with_prefix.
  - intros i Hi. by apply Hkeep, apply_op_keeps.
Qed.

(** X14.  Registering a call again, with the same parameters and the
    same messages store, changes nothing, whatever the clock says. *)
Theorem register_twice_is_register_once :
  ∀ (p : ToolCallParams) (m : MessagesStore) (t1 t2 : Z)
    (st : ToolExecutionsStore),
    registerToolCall p m t2 (registerToolCall p m t1 st)
    = registerToolCall p m t1 st.
Proof.
  intros p m t1 t2 st. unfold registerToolCall. simpl.
  rewrite lookup_insert_eq, insert_insert_eq, order_with_idem.
  f_equal. f_equal.
  destruct (executions st !! p_toolCallId p) as [e|]; simpl.
  - destruct (messageId e); [done|].
    by destruct (resolveCurrentAssistantMessageId m).
  - by destruct (resolveCurrentAssistantMessageId m).
Qed.

(** The two queries on the finite-map reading of a reachable store. *)
Lemma executions_for_message :
  ∀ (ops : list Op) (mid : string),
    let st := apply_ops ops INITIAL_STATE in
    (∀ e, e ∈ getToolExecutionsForMessage mid st
          ↔ executions st !! toolCallId e = Some e ∧ messageId e = Some mid)
    ∧ toolCallId <$> getToolExecutionsForMessage mid st
      `sublist_of` executionOrder st
    ∧ NoDup (getToolExecutionsForMessage mid st)
    ∧ (hasToolExecutionsForMessage mid st = true
       ↔ ∃ e, e ∈ getToolExecutionsForMessage mid st).
Proof.
  intros ops mid st.
  assert (Hst : consistent st)
    by apply apply_ops_consistent, INITIAL_STATE_consistent.
  pose proof (listed_records st Hst) as Hlisted.
  destruct Hst as (Hnd & Hdom & Hkey).
  unfold hasToolExecutionsForMessage, getToolExecutionsForMessage.
  assert (Hsub : toolCallId <$> filter (λ e, messageId e = Some mid)
                   (omap (λ i, executions st !! i) (executionOrder st))
                 `sublist_of` executionOrder st).
  { rewrite <- Hlisted at 2. apply fmap_sublist, sublist_filter. }
  split; [|split; [exact Hsub|split]].
  - intros e. rewrite list_elem_of_filter, list_elem_of_omap. split.
    + intros [Hm (i & Hi & He)]. split; [|done].
      by rewrite (Hkey i e He).
    + intros [He Hm]. split; [done|]. exists (toolCallId e).
      split; [|done]. apply Hdom. eauto.
  - eapply NoDup_fmap_1, sublist_NoDup; [exact Hnd|exact Hsub].
  - rewrite bool_decide_eq_true.
    destruct (filter _ _) as [|e l]; simpl.
    + split; [intros Hlt; by apply Nat.lt_irrefl in Hlt|].
      intros [e He]. by apply elem_of_nil in He.
    + split; [|intros _; apply Nat.lt_0_succ]. intros _. exists e. by left.
Qed.

(** X17.  Calls do not interfere: the record of a call id after a run is
    the record obtained by running only the operations on that id. *)
Theorem record_depends_on_own_operations :
  ∀ (i : string) (ops : list Op) (st : ToolExecutionsStore),
    executions (apply_ops ops st) !! i
    = executions (apply_ops (filter (λ o, op_id o = i) ops) st) !! i.
Proof. intros i ops st. by apply apply_ops_project. Qed.

(** X18.  Of a series of partial results for a tracked call the last one
    is kept, and nothing else in the record changes. *)
Theorem last_partial_wins :
  ∀ (rs : list ToolExecutionResult) (r : ToolExecutionResult)
    (st : ToolExecutionsStore) (i : string) (e : ToolExecution),
    executions st !! i = Some e →
    executions (apply_ops (map (Update i) (rs ++ [r])) st) !! i
    = Some (with_partialResult r e).
Proof.
  induction rs as [|r0 rs IH]; intros r st i e He.
  - simpl. unfold updateToolExecution. rewrite He. simpl.
    by rewrite lookup_insert_eq.
  - cbn [app map]. rewrite apply_ops_cons.
    rewrite (IH r _ i (with_partialResult r0 e)); [done|].
    simpl. unfold updateToolExecution. rewrite He. simpl.
    by rewrite lookup_insert_eq.
Qed.

(** X19.  The owner [resolveCurrentAssistantMessageId] picks: the
    current message id when there is a non-empty one; otherwise the id of
    the last assistant message of the conversation, never that of a user
    message; and null exactly when the conversation has no assistant
    message. *)
Theorem resolved_owner :
  ∀ m : MessagesStore,
    match currentMessageId m with
    | Some (String a s) =>
        resolveCurrentAssistantMessageId m = Some (String a s)
    | _ =>
        match resolveCurrentAssistantMessageId m with
        | Some i =>
            ∃ pre x post, messages m = pre ++ x :: post
                          ∧ role x = assistant ∧ id x = i
                          ∧ Forall (λ y, role y = user) post
        | None => Forall (λ y, role y = user) (messages m)
        end
    end.
Proof.
  intros m. unfold resolveCurrentAssistantMessageId.
  assert (Hrole : ∀ y, is_assistant y = false → role y = user).
  { intros y. unfold is_assistant. by destruct (role y). }
  assert (Hgoal :
    match id <$> find is_assistant (rev (messages m)) with
    | Some i =>
        ∃ pre x post, messages m = pre ++ x :: post
                      ∧ role x = assistant ∧ id x = i
                      ∧ Forall (λ y, role y = user) post
    | None => Forall (λ y, role y = user) (messages m)
    end).
  { pose proof (find_split is_assistant (rev (messages m))) as Hf.
    destruct (find is_assistant (rev (messages m))) as [x|]; simpl.
    - destruct Hf as (l1 & l2 & Hl & Hx & Hl1).
      exists (rev l2), x, (rev l1). split; [|split; [|split]].
      + rewrite <- (rev_involutive (messages m)), Hl, rev_app_distr.
        simpl. by rewrite <- app_assoc.
      + unfold is_assistant in Hx. by destruct (role x).
      + done.
      + apply List.Forall_rev. eapply Forall_impl; [exact Hl1|]. auto.
    - rewrite <- (rev_involutive (messages m)). apply List.Forall_rev.
      eapply Forall_impl; [exact Hf|]. auto. }
  destruct (currentMessageId m) as [[|a s]|]; done.
Qed.

Lemma last_partial_wins_witness :
  let p := {| p_toolCallId := "call-1"; p_toolName := "bash";
              p_args := JObject [] |} in
  let st := apply_op (Start p sample_idle 10) INITIAL_STATE in
  let r1 := {| result_content := Some [JString "half"];
               result_details := None |} in
  partialResult
    <$> executions
          (apply_ops (map (Update "call-1") ([r1; sample_result] ++ [r1])) st)
        !! "call-1"
  = Some (Some r1).
Proof.
  intros p st r1.
  rewrite (last_partial_wins [r1; sample_result] r1 st "call-1"
             {| toolCallId := "call-1"; toolName := "bash";
                args := JObject []; status := running;
                partialResult := None; result := None; isError := None;
                startTime := 10; endTime := None; messageId := None |}).
  - reflexivity.
  - vm_compute. reflexivity.
Defined.

End ToolExecutionsMore.

(* ===================================================================== *)
(** * Properties of the tracker with [executions] read as an object        *)
(* ===================================================================== *)

Module ToolExecutionsJsFacts.
Import ToolExecutions ToolExecutionsFacts ToolExecutionsMore.
Import ToolExecutionsJs.

Module Js := ToolExecutionsJs.

Ltac unfold_js :=
  unfold Js.apply_op, Js.registerToolCall, Js.startToolExecution,
    Js.updateToolExecution, Js.finishToolExecution in *; simpl in *.

Lemma apply_ops_js_cons (o : Op) (ops : list Op) (st : JsStore) :
  Js.apply_ops (o :: ops) st = Js.apply_ops ops (Js.apply_op o st).
Proof. reflexivity. Qed.

(** ** Ordinary call ids: the object is a finite map *)

Lemma get_property_of_record (m : gmap string ToolExecution) (i : string) :
  inherited_name i = false →
  get_property (of_record <$> m) i = of_record <$> m !! i.
Proof.
  intros Hi. unfold get_property. rewrite lookup_fmap, Hi.
  by destruct (m !! i).
Qed.

Lemma apply_op_of_store (o : Op) (st : ToolExecutionsStore) :
  inherited_name (op_id o) = false →
  Js.apply_op o (of_store st) = of_store (ToolExecutions.apply_op o st).
Proof.
  intros Hi. destruct o as [p m t|p m t|j r|j r b t]; simpl in Hi;
    unfold_js; unfold_ops; unfold of_store; simpl;
    rewrite get_property_of_record by done;
    destruct (executions st !! _) as [e|] eqn:E; simpl;
    rewrite ?fmap_insert; reflexivity.
Qed.

Lemma apply_ops_of_store (ops : list Op) :
  ∀ st : ToolExecutionsStore,
    ordinary ops →
    Js.apply_ops ops (of_store st)
    = of_store (ToolExecutions.apply_ops ops st).
Proof.
  induction ops as [|o ops IH]; intros st Hops; [done|].
  apply Forall_cons in Hops as [Ho Hops].
  rewrite apply_ops_js_cons, apply_ops_cons, apply_op_of_store by done.
  by apply IH.
Qed.

Lemma INITIAL_STATE_of_store :
  Js.INITIAL_STATE = of_store ToolExecutions.INITIAL_STATE.
Proof. unfold of_store. simpl. by rewrite fmap_empty. Qed.

Lemma reachable_of_store (ops : list Op) :
  ordinary ops →
  Js.apply_ops ops Js.INITIAL_STATE
  = of_store (ToolExecutions.apply_ops ops ToolExecutions.INITIAL_STATE).
Proof.
  intros Hops. rewrite INITIAL_STATE_of_store. by apply apply_ops_of_store.
Qed.

(** ** Call ids for which nothing is read *)

(** On a call id that has no record and that no object inherits, update
    and finish return the store they were given. *)
Lemma unlisted_call_is_noop (st : JsStore) (callId : string)
    (partial res : ToolExecutionResult) (is_error : bool) (now : Z) :
  js_executions st !! callId = None → inherited_name callId = false →
  Js.updateToolExecution callId partial st = st
  ∧ Js.finishToolExecution callId res is_error now st = st.
Proof.
  intros Hnone Hi.
  unfold Js.updateToolExecution, Js.finishToolExecution, get_property.
  by rewrite Hnone, Hi.
Qed.

(** C9, at inputs where the code departs from it.  The initial store has
    no record for the call ids [toString] and [constructor], yet reading
    them from the [executions] object gives the functions every object
    inherits, so the guard for an unknown id does not fire:
    [updateToolExecution] stores a record that has a partial result and
    nothing else, [finishToolExecution] one that has a status, a result,
    the error flag and an end time and nothing else, and in both cases
    the store has changed. *)
Theorem inherited_call_id_is_written :
  let st1 := Js.updateToolExecution "toString" sample_result
               Js.INITIAL_STATE in
  let st2 := Js.finishToolExecution "constructor" sample_result false 7
               Js.INITIAL_STATE in
  js_executions Js.INITIAL_STATE !! "toString" = None
  ∧ js_executions Js.INITIAL_STATE !! "constructor" = None
  ∧ js_executions st1 !! "toString"
    = Some {| js_toolCallId := None; js_toolName := None; js_args := None;
              js_status := None; js_partialResult := Some sample_result;
              js_result := None; js_isError := None; js_startTime := None;
              js_endTime := None; js_messageId := None |}
  ∧ js_executions st2 !! "constructor"
    = Some {| js_toolCallId := None; js_toolName := None; js_args := None;
              js_status := Some completed; js_partialResult := None;
              js_result := Some sample_result; js_isError := Some false;
              js_startTime := None; js_endTime := Some 7%Z;
              js_messageId := None |}
  ∧ st1 ≠ Js.INITIAL_STATE
  ∧ st2 ≠ Js.INITIAL_STATE.
Proof.
  assert (H1 : js_executions
                 (Js.updateToolExecution "toString" sample_result
                    Js.INITIAL_STATE) !! "toString"
               = Some {| js_toolCallId := None; js_toolName := None;
                         js_args := None; js_status := None;
                         js_partialResult := Some sample_result;
                         js_result := None; js_isError := None;
                         js_startTime := None; js_endTime := None;
                         js_messageId := None |})
    by (vm_compute; reflexivity).
  assert (H2 : js_executions
                 (Js.finishToolExecution "constructor" sample_result false 7
                    Js.INITIAL_STATE) !! "constructor"
               = Some {| js_toolCallId := None; js_toolName := None;
                         js_args := None; js_status := Some completed;
                         js_partialResult := None;
                         js_result := Some sample_result;
                         js_isError := Some false; js_startTime := None;
                         js_endTime := Some 7%Z; js_messageId := None |})
    by (vm_compute; reflexivity).
  split; [reflexivity|]. split; [reflexivity|].
  split; [exact H1|]. split; [exact H2|]. split.
  - intros Heq. rewrite Heq in H1. discriminate H1.
  - intros Heq. rewrite Heq in H2. discriminate H2.
Qed.

(** ** Runs on ordinary call ids *)

(** X12.  Every store reached from the initial one by operations on call
    ids that no object inherits is consistent: [executionOrder] has no
    duplicates, it lists exactly the call ids that have a record, and
    every record carries the [toolCallId] it is stored under. *)
Theorem ordinary_store_consistent :
  ∀ ops : list Op,
    ordinary ops →
    let st := Js.apply_ops ops Js.INITIAL_STATE in
    NoDup (js_executionOrder st)
    ∧ (∀ i, i ∈ js_executionOrder st ↔ is_Some (js_executions st !! i))
    ∧ (∀ i e, js_executions st !! i = Some e → js_toolCallId e = Some i).
Proof.
  intros ops Hops st. subst st. rewrite reachable_of_store by done.
  destruct (apply_ops_consistent ops _ INITIAL_STATE_consistent)
    as (Hnd & Hdom & Hkey).
  unfold of_store. simpl. split; [done|]. split.
  - intros i. rewrite Hdom, lookup_fmap. by rewrite fmap_is_Some.
  - intros i e. rewrite lookup_fmap.
    destruct (executions _ !! i) as [e0|] eqn:E; [|done].
    intros [= <-]. simpl. by rewrite (Hkey i e0 E).
Qed.

(** One operation and the start time of a record that has one. *)
Lemma start_time_step (o : Op) (st : JsStore) (i : string) (e : JsExecution)
    (t : Z) :
  js_executions st !! i = Some e → js_startTime e = Some t →
  ∃ e', js_executions (Js.apply_op o st) !! i = Some e'
        ∧ js_startTime e' = Some t.
Proof.
  intros He Ht. destruct (decide (op_id o = i)) as [<-|Hne].
  - destruct o as [p m t0|p m t0|j r|j r b t0]; unfold_js;
      unfold get_property; rewrite He; simpl;
      rewrite lookup_insert_eq; eexists; (split; [reflexivity|]); simpl;
      by rewrite ?Ht.
  - exists e. split; [|done].
    destruct o as [p m t0|p m t0|j r|j r b t0]; unfold_js;
      try (by rewrite lookup_insert_ne);
      destruct (get_property _ j); simpl; by rewrite ?lookup_insert_ne.
Qed.

(** X15.  Once a record has a start time, no later [registerToolCall],
    [startToolExecution], [updateToolExecution] or [finishToolExecution],
    on any call id, changes it. *)
Theorem start_time_kept_once_set :
  ∀ (ops : list Op) (st : JsStore) (i : string) (e : JsExecution) (t : Z),
    js_executions st !! i = Some e → js_startTime e = Some t →
    ∃ e', js_executions (Js.apply_ops ops st) !! i = Some e'
          ∧ js_startTime e' = Some t.
Proof.
  induction ops as [|o ops IH]; intros st i e t He Ht; [by eauto|].
  rewrite apply_ops_js_cons.
  destruct (start_time_step o st i e t He Ht) as (e1 & He1 & Ht1).
  by apply (IH _ _ e1).
Qed.

Lemma omap_get_property_of_record (m : gmap string ToolExecution)
    (order : list string) :
  (∀ i, i ∈ order → is_Some (m !! i)) →
  omap (get_property (of_record <$> m)) order
  = of_record <$> omap (λ i, m !! i) order.
Proof.
  induction order as [|i order IH]; intros Hall; [done|].
  destruct (Hall i) as [e He]; [by left|].
  cbn [omap list_omap]. unfold get_property at 1.
  rewrite lookup_fmap, He. simpl. f_equal.
  apply IH. intros j Hj. apply Hall. by right.
Qed.

Lemma filter_of_record (mid : string) (l : list ToolExecution) :
  filter (λ e, js_messageId e = Some mid) (of_record <$> l)
  = of_record <$> filter (λ e, messageId e = Some mid) l.
Proof.
  induction l as [|e l IH]; [done|].
  cbn [fmap list_fmap]. rewrite !filter_cons. simpl.
  destruct (decide (messageId e = Some mid)); simpl; by rewrite IH.
Qed.

Lemma getToolExecutionsForMessage_of_store (mid : string)
    (st : ToolExecutionsStore) :
  consistent st →
  Js.getToolExecutionsForMessage mid (of_store st)
  = of_record <$> ToolExecutions.getToolExecutionsForMessage mid st.
Proof.
  intros (_ & Hdom & _).
  unfold Js.getToolExecutionsForMessage,
    ToolExecutions.getToolExecutionsForMessage, of_store. simpl.
  rewrite omap_get_property_of_record by (intros i; apply Hdom).
  apply filter_of_record.
Qed.

(** X16.  In a store reached from the initial one by operations on call
    ids that no object inherits, [getToolExecutionsForMessage] returns
    exactly the records bound to the message, each once and in the order
    of first registration, and [hasToolExecutionsForMessage] tells
    whether there is one. *)
Theorem executions_listed_for_message :
  ∀ (ops : list Op) (mid : string),
    ordinary ops →
    let st := Js.apply_ops ops Js.INITIAL_STATE in
    (∀ e, e ∈ Js.getToolExecutionsForMessage mid st
          ↔ (∃ i, js_executions st !! i = Some e)
            ∧ js_messageId e = Some mid)
    ∧ omap js_toolCallId (Js.getToolExecutionsForMessage mid st)
      `sublist_of` js_executionOrder st
    ∧ NoDup (Js.getToolExecutionsForMessage mid st)
    ∧ (Js.hasToolExecutionsForMessage mid st = true
       ↔ ∃ e, e ∈ Js.getToolExecutionsForMessage mid st).
Proof.
  intros ops mid Hops st. subst st.
  unfold Js.hasToolExecutionsForMessage.
  rewrite reachable_of_store by done.
  set (st0 := ToolExecutions.apply_ops ops ToolExecutions.INITIAL_STATE).
  assert (Hst0 : consistent st0)
    by apply apply_ops_consistent, INITIAL_STATE_consistent.
  rewrite getToolExecutionsForMessage_of_store by done.
  destruct (executions_for_message ops mid) as (Hin & Hsub & Hnd & Hhas).
  fold st0 in Hin, Hsub, Hnd, Hhas.
  destruct Hst0 as (_ & _ & Hkey).
  set (l := ToolExecutions.getToolExecutionsForMessage mid st0) in *.
  assert (Hids : omap js_toolCallId (of_record <$> l) = toolCallId <$> l).
  { clear. induction l as [|e l IH]; [done|].
    cbn [fmap list_fmap omap list_omap]. simpl. by rewrite IH. }
  split; [|split; [|split]].
  - intros e. rewrite list_elem_of_fmap. split.
    + intros (e0 & -> & He0). apply Hin in He0 as [Hl Hm].
      split; [|done]. exists (toolCallId e0). unfold of_store. simpl.
      by rewrite lookup_fmap, Hl.
    + intros [[i Hi] Hm]. unfold of_store in Hi. simpl in Hi.
      rewrite lookup_fmap in Hi.
      destruct (executions st0 !! i) as [e0|] eqn:E; [|done].
      injection Hi as <-. exists e0. split; [done|].
      apply Hin. by rewrite (Hkey i e0 E).
  - by rewrite Hids.
  - apply (NoDup_fmap_1 js_toolCallId).
    assert (Hsome : js_toolCallId <$> (of_record <$> l)
                    = Some <$> (toolCallId <$> l)).
    { clear. induction l as [|e l IH]; [done|].
      cbn [fmap list_fmap]. simpl. f_equal. exact IH. }
    rewrite Hsome. apply NoDup_fmap_2; [apply _|].
    eapply sublist_NoDup; [|exact Hsub].
    by destruct (apply_ops_consistent ops _ INITIAL_STATE_consistent).
  - rewrite bool_decide_eq_true, length_fmap.
    unfold ToolExecutions.hasToolExecutionsForMessage in Hhas.
    rewrite bool_decide_eq_true in Hhas. fold l in Hhas. rewrite Hhas.
    split.
    + intros [e He]. exists (of_record e). apply list_elem_of_fmap. eauto.
    + intros [e He]. apply list_elem_of_fmap in He as (e0 & _ & He0). eauto.
Qed.

Lemma ordinary_store_consistent_witness :
  let p := {| p_toolCallId := "call-1"; p_toolName := "bash";
              p_args := JObject [] |} in
  let ops := [Register p sample_idle 10; Start p sample_idle 11;
              Update "call-2" sample_result;
              Finish "call-1" sample_result false 12] in
  NoDup (js_executionOrder (Js.apply_ops ops Js.INITIAL_STATE))
  ∧ js_executionOrder (Js.apply_ops ops Js.INITIAL_STATE) = ["call-1"].
Proof.
  intros p ops.
  destruct (ordinary_store_consistent ops) as (Hnd & _).
  - repeat constructor.
  - split; [exact Hnd|reflexivity].
Defined.

Lemma start_time_kept_once_set_witness :
  let p := {| p_toolCallId := "call-1"; p_toolName := "bash";
              p_args := JObject [] |} in
  let st := Js.apply_op (Register p sample_idle 10) Js.INITIAL_STATE in
  ∃ e', js_executions
          (Js.apply_ops [Start p (sample_streaming "msg-1") 25;
                         Register p (sample_streaming "msg-2") 30;
                         Finish "call-1" sample_result false 40] st)
        !! "call-1" = Some e'
        ∧ js_startTime e' = Some 10%Z.
Proof.
  intros p st.
  apply (start_time_kept_once_set
           [Start p (sample_streaming "msg-1") 25;
            Register p (sample_streaming "msg-2") 30;
            Finish "call-1" sample_result false 40] st "call-1"
           {| js_toolCallId := Some "call-1"; js_toolName := Some "bash";
              js_args := Some (JObject []); js_status := Some called;
              js_partialResult := None; js_result := None;
              js_isError := None; js_startTime := Some 10%Z;
              js_endTime := None; js_messageId := None |}).
  - vm_compute. reflexivity.
  - reflexivity.
Defined.

Lemma executions_listed_for_message_witness :
  let p := {| p_toolCallId := "call-1"; p_toolName := "bash";
              p_args := JObject [] |} in
  let q := {| p_toolCallId := "call-2"; p_toolName := "read";
              p_args := JObject [] |} in
  let ops := [Register q (sample_streaming "msg-1") 10;
              Register p (sample_streaming "msg-1") 11;
              Start q (sample_streaming "msg-1") 12] in
  omap js_toolCallId
    (Js.getToolExecutionsForMessage "msg-1"
       (Js.apply_ops ops Js.INITIAL_STATE))
  = ["call-2"; "call-1"]
  ∧ NoDup (Js.getToolExecutionsForMessage "msg-1"
             (Js.apply_ops ops Js.INITIAL_STATE)).
Proof.
  intros p q ops.
  destruct (executions_listed_for_message ops "msg-1") as (_ & _ & Hnd & _).
  - repeat constructor.
  - split; [vm_compute; reflexivity|exact Hnd].
Defined.

End ToolExecutionsJsFacts.
